(** * NestTask routine page: enrichment, filtering, ordering, routine selection

    A shallow embedding of [src/pages/RoutinePage.tsx] (the hooks' bodies of
    the [RoutinePage] component) and of [test-offline.js], with the
    properties of the routine data layer stated and proved over it.

    Conventions of the embedding.
    - A JavaScript value of type [string | undefined] is an [option string];
      [undefined] is [None].  Its truthiness is [truthy]: a defined,
      non-empty string.
    - A string is a Rocq string holding the text in UTF-8; [toLowerCase] is
      the default case conversion of Unicode on its code points, with the
      tables of Unicode 14 (module [Unicode]).  Text with unpaired
      surrogates has no such string.
    - A JavaScript [Map] keyed by strings is a [gmap string _].
    - Code that may throw runs in [Completion]: reading a property of
      [undefined] is a [TypeError].  Optional chaining [?.] never throws and
      is the [option] functor. *)

From Stdlib Require Import ZArith Ascii String List Sorting.Sorted Sorting.Permutation.
From stdpp Require Import base option gmap strings list pretty.

Local Open Scope string_scope.
Local Open Scope list_scope.
Local Open Scope Z_scope.

(** ** Unicode: lower case and UTF-8 *)

Module Unicode.

Local Open Scope N_scope.

(** The simple lowercase mappings of UnicodeData, as runs: every [step]-th
    character from [first] to [last] maps to the character as far from
    [target] as it is from [first]. *)
Definition lowercase_runs : list (N * N * N * N) :=
  [(0x41, 0x5A, 0x1, 0x61); (0xC0, 0xD6, 0x1, 0xE0); (0xD8, 0xDE, 0x1, 0xF8);
   (0x100, 0x12E, 0x2, 0x101); (0x132, 0x136, 0x2, 0x133); (0x139, 0x147, 0x2, 0x13A);
   (0x14A, 0x176, 0x2, 0x14B); (0x178, 0x178, 0x1, 0xFF); (0x179, 0x17D, 0x2, 0x17A);
   (0x181, 0x181, 0x1, 0x253); (0x182, 0x184, 0x2, 0x183); (0x186, 0x186, 0x1, 0x254);
   (0x187, 0x187, 0x1, 0x188); (0x189, 0x18A, 0x1, 0x256); (0x18B, 0x18B, 0x1, 0x18C);
   (0x18E, 0x18E, 0x1, 0x1DD); (0x18F, 0x18F, 0x1, 0x259); (0x190, 0x190, 0x1, 0x25B);
   (0x191, 0x191, 0x1, 0x192); (0x193, 0x193, 0x1, 0x260); (0x194, 0x194, 0x1, 0x263);
   (0x196, 0x196, 0x1, 0x269); (0x197, 0x197, 0x1, 0x268); (0x198, 0x198, 0x1, 0x199);
   (0x19C, 0x19C, 0x1, 0x26F); (0x19D, 0x19D, 0x1, 0x272); (0x19F, 0x19F, 0x1, 0x275);
   (0x1A0, 0x1A4, 0x2, 0x1A1); (0x1A6, 0x1A6, 0x1, 0x280); (0x1A7, 0x1A7, 0x1, 0x1A8);
   (0x1A9, 0x1A9, 0x1, 0x283); (0x1AC, 0x1AC, 0x1, 0x1AD); (0x1AE, 0x1AE, 0x1, 0x288);
   (0x1AF, 0x1AF, 0x1, 0x1B0); (0x1B1, 0x1B2, 0x1, 0x28A); (0x1B3, 0x1B5, 0x2, 0x1B4);
   (0x1B7, 0x1B7, 0x1, 0x292); (0x1B8, 0x1B8, 0x1, 0x1B9); (0x1BC, 0x1BC, 0x1, 0x1BD);
   (0x1C4, 0x1C4, 0x1, 0x1C6); (0x1C5, 0x1C5, 0x1, 0x1C6); (0x1C7, 0x1C7, 0x1, 0x1C9);
   (0x1C8, 0x1C8, 0x1, 0x1C9); (0x1CA, 0x1CA, 0x1, 0x1CC); (0x1CB, 0x1DB, 0x2, 0x1CC);
   (0x1DE, 0x1EE, 0x2, 0x1DF); (0x1F1, 0x1F1, 0x1, 0x1F3); (0x1F2, 0x1F4, 0x2, 0x1F3);
   (0x1F6, 0x1F6, 0x1, 0x195); (0x1F7, 0x1F7, 0x1, 0x1BF); (0x1F8, 0x21E, 0x2, 0x1F9);
   (0x220, 0x220, 0x1, 0x19E); (0x222, 0x232, 0x2, 0x223); (0x23A, 0x23A, 0x1, 0x2C65);
   (0x23B, 0x23B, 0x1, 0x23C); (0x23D, 0x23D, 0x1, 0x19A); (0x23E, 0x23E, 0x1, 0x2C66);
   (0x241, 0x241, 0x1, 0x242); (0x243, 0x243, 0x1, 0x180); (0x244, 0x244, 0x1, 0x289);
   (0x245, 0x245, 0x1, 0x28C); (0x246, 0x24E, 0x2, 0x247); (0x370, 0x372, 0x2, 0x371);
   (0x376, 0x376, 0x1, 0x377); (0x37F, 0x37F, 0x1, 0x3F3); (0x386, 0x386, 0x1, 0x3AC);
   (0x388, 0x38A, 0x1, 0x3AD); (0x38C, 0x38C, 0x1, 0x3CC); (0x38E, 0x38F, 0x1, 0x3CD);
   (0x391, 0x3A1, 0x1, 0x3B1); (0x3A3, 0x3AB, 0x1, 0x3C3); (0x3CF, 0x3CF, 0x1, 0x3D7);
   (0x3D8, 0x3EE, 0x2, 0x3D9); (0x3F4, 0x3F4, 0x1, 0x3B8); (0x3F7, 0x3F7, 0x1, 0x3F8);
   (0x3F9, 0x3F9, 0x1, 0x3F2); (0x3FA, 0x3FA, 0x1, 0x3FB); (0x3FD, 0x3FF, 0x1, 0x37B);
   (0x400, 0x40F, 0x1, 0x450); (0x410, 0x42F, 0x1, 0x430); (0x460, 0x480, 0x2, 0x461);
   (0x48A, 0x4BE, 0x2, 0x48B); (0x4C0, 0x4C0, 0x1, 0x4CF); (0x4C1, 0x4CD, 0x2, 0x4C2);
   (0x4D0, 0x52E, 0x2, 0x4D1); (0x531, 0x556, 0x1, 0x561); (0x10A0, 0x10C5, 0x1, 0x2D00);
   (0x10C7, 0x10C7, 0x1, 0x2D27); (0x10CD, 0x10CD, 0x1, 0x2D2D); (0x13A0, 0x13EF, 0x1, 0xAB70);
   (0x13F0, 0x13F5, 0x1, 0x13F8); (0x1C90, 0x1CBA, 0x1, 0x10D0); (0x1CBD, 0x1CBF, 0x1, 0x10FD);
   (0x1E00, 0x1E94, 0x2, 0x1E01); (0x1E9E, 0x1E9E, 0x1, 0xDF); (0x1EA0, 0x1EFE, 0x2, 0x1EA1);
   (0x1F08, 0x1F0F, 0x1, 0x1F00); (0x1F18, 0x1F1D, 0x1, 0x1F10); (0x1F28, 0x1F2F, 0x1, 0x1F20);
   (0x1F38, 0x1F3F, 0x1, 0x1F30); (0x1F48, 0x1F4D, 0x1, 0x1F40); (0x1F59, 0x1F5F, 0x2, 0x1F51);
   (0x1F68, 0x1F6F, 0x1, 0x1F60); (0x1F88, 0x1F8F, 0x1, 0x1F80); (0x1F98, 0x1F9F, 0x1, 0x1F90);
   (0x1FA8, 0x1FAF, 0x1, 0x1FA0); (0x1FB8, 0x1FB9, 0x1, 0x1FB0); (0x1FBA, 0x1FBB, 0x1, 0x1F70);
   (0x1FBC, 0x1FBC, 0x1, 0x1FB3); (0x1FC8, 0x1FCB, 0x1, 0x1F72); (0x1FCC, 0x1FCC, 0x1, 0x1FC3);
   (0x1FD8, 0x1FD9, 0x1, 0x1FD0); (0x1FDA, 0x1FDB, 0x1, 0x1F76); (0x1FE8, 0x1FE9, 0x1, 0x1FE0);
   (0x1FEA, 0x1FEB, 0x1, 0x1F7A); (0x1FEC, 0x1FEC, 0x1, 0x1FE5); (0x1FF8, 0x1FF9, 0x1, 0x1F78);
   (0x1FFA, 0x1FFB, 0x1, 0x1F7C); (0x1FFC, 0x1FFC, 0x1, 0x1FF3); (0x2126, 0x2126, 0x1, 0x3C9);
   (0x212A, 0x212A, 0x1, 0x6B); (0x212B, 0x212B, 0x1, 0xE5); (0x2132, 0x2132, 0x1, 0x214E);
   (0x2160, 0x216F, 0x1, 0x2170); (0x2183, 0x2183, 0x1, 0x2184); (0x24B6, 0x24CF, 0x1, 0x24D0);
   (0x2C00, 0x2C2F, 0x1, 0x2C30); (0x2C60, 0x2C60, 0x1, 0x2C61); (0x2C62, 0x2C62, 0x1, 0x26B);
   (0x2C63, 0x2C63, 0x1, 0x1D7D); (0x2C64, 0x2C64, 0x1, 0x27D); (0x2C67, 0x2C6B, 0x2, 0x2C68);
   (0x2C6D, 0x2C6D, 0x1, 0x251); (0x2C6E, 0x2C6E, 0x1, 0x271); (0x2C6F, 0x2C6F, 0x1, 0x250);
   (0x2C70, 0x2C70, 0x1, 0x252); (0x2C72, 0x2C72, 0x1, 0x2C73); (0x2C75, 0x2C75, 0x1, 0x2C76);
   (0x2C7E, 0x2C7F, 0x1, 0x23F); (0x2C80, 0x2CE2, 0x2, 0x2C81); (0x2CEB, 0x2CED, 0x2, 0x2CEC);
   (0x2CF2, 0x2CF2, 0x1, 0x2CF3); (0xA640, 0xA66C, 0x2, 0xA641); (0xA680, 0xA69A, 0x2, 0xA681);
   (0xA722, 0xA72E, 0x2, 0xA723); (0xA732, 0xA76E, 0x2, 0xA733); (0xA779, 0xA77B, 0x2, 0xA77A);
   (0xA77D, 0xA77D, 0x1, 0x1D79); (0xA77E, 0xA786, 0x2, 0xA77F); (0xA78B, 0xA78B, 0x1, 0xA78C);
   (0xA78D, 0xA78D, 0x1, 0x265); (0xA790, 0xA792, 0x2, 0xA791); (0xA796, 0xA7A8, 0x2, 0xA797);
   (0xA7AA, 0xA7AA, 0x1, 0x266); (0xA7AB, 0xA7AB, 0x1, 0x25C); (0xA7AC, 0xA7AC, 0x1, 0x261);
   (0xA7AD, 0xA7AD, 0x1, 0x26C); (0xA7AE, 0xA7AE, 0x1, 0x26A); (0xA7B0, 0xA7B0, 0x1, 0x29E);
   (0xA7B1, 0xA7B1, 0x1, 0x287); (0xA7B2, 0xA7B2, 0x1, 0x29D); (0xA7B3, 0xA7B3, 0x1, 0xAB53);
   (0xA7B4, 0xA7C2, 0x2, 0xA7B5); (0xA7C4, 0xA7C4, 0x1, 0xA794); (0xA7C5, 0xA7C5, 0x1, 0x282);
   (0xA7C6, 0xA7C6, 0x1, 0x1D8E); (0xA7C7, 0xA7C9, 0x2, 0xA7C8); (0xA7D0, 0xA7D0, 0x1, 0xA7D1);
   (0xA7D6, 0xA7D8, 0x2, 0xA7D7); (0xA7F5, 0xA7F5, 0x1, 0xA7F6); (0xFF21, 0xFF3A, 0x1, 0xFF41);
   (0x10400, 0x10427, 0x1, 0x10428); (0x104B0, 0x104D3, 0x1, 0x104D8); (0x10570, 0x1057A, 0x1, 0x10597);
   (0x1057C, 0x1058A, 0x1, 0x105A3); (0x1058C, 0x10592, 0x1, 0x105B3); (0x10594, 0x10595, 0x1, 0x105BB);
   (0x10C80, 0x10CB2, 0x1, 0x10CC0); (0x118A0, 0x118BF, 0x1, 0x118C0); (0x16E40, 0x16E5F, 0x1, 0x16E60);
   (0x1E900, 0x1E921, 0x1, 0x1E922)]%N.
(** The characters with the property Case_Ignorable. *)
Definition case_ignorable_ranges : list (N * N) :=
  [(0x27, 0x27); (0x2E, 0x2E); (0x3A, 0x3A); (0x5E, 0x5E); (0x60, 0x60);
   (0xA8, 0xA8); (0xAD, 0xAD); (0xAF, 0xAF); (0xB4, 0xB4); (0xB7, 0xB8);
   (0x2B0, 0x36F); (0x374, 0x375); (0x37A, 0x37A); (0x384, 0x385); (0x387, 0x387);
   (0x483, 0x489); (0x559, 0x559); (0x55F, 0x55F); (0x591, 0x5BD); (0x5BF, 0x5BF);
   (0x5C1, 0x5C2); (0x5C4, 0x5C5); (0x5C7, 0x5C7); (0x5F4, 0x5F4); (0x600, 0x605);
   (0x610, 0x61A); (0x61C, 0x61C); (0x640, 0x640); (0x64B, 0x65F); (0x670, 0x670);
   (0x6D6, 0x6DD); (0x6DF, 0x6E8); (0x6EA, 0x6ED); (0x70F, 0x70F); (0x711, 0x711);
   (0x730, 0x74A); (0x7A6, 0x7B0); (0x7EB, 0x7F5); (0x7FA, 0x7FA); (0x7FD, 0x7FD);
   (0x816, 0x82D); (0x859, 0x85B); (0x888, 0x888); (0x890, 0x891); (0x898, 0x89F);
   (0x8C9, 0x902); (0x93A, 0x93A); (0x93C, 0x93C); (0x941, 0x948); (0x94D, 0x94D);
   (0x951, 0x957); (0x962, 0x963); (0x971, 0x971); (0x981, 0x981); (0x9BC, 0x9BC);
   (0x9C1, 0x9C4); (0x9CD, 0x9CD); (0x9E2, 0x9E3); (0x9FE, 0x9FE); (0xA01, 0xA02);
   (0xA3C, 0xA3C); (0xA41, 0xA42); (0xA47, 0xA48); (0xA4B, 0xA4D); (0xA51, 0xA51);
   (0xA70, 0xA71); (0xA75, 0xA75); (0xA81, 0xA82); (0xABC, 0xABC); (0xAC1, 0xAC5);
   (0xAC7, 0xAC8); (0xACD, 0xACD); (0xAE2, 0xAE3); (0xAFA, 0xAFF); (0xB01, 0xB01);
   (0xB3C, 0xB3C); (0xB3F, 0xB3F); (0xB41, 0xB44); (0xB4D, 0xB4D); (0xB55, 0xB56);
   (0xB62, 0xB63); (0xB82, 0xB82); (0xBC0, 0xBC0); (0xBCD, 0xBCD); (0xC00, 0xC00);
   (0xC04, 0xC04); (0xC3C, 0xC3C); (0xC3E, 0xC40); (0xC46, 0xC48); (0xC4A, 0xC4D);
   (0xC55, 0xC56); (0xC62, 0xC63); (0xC81, 0xC81); (0xCBC, 0xCBC); (0xCBF, 0xCBF);
   (0xCC6, 0xCC6); (0xCCC, 0xCCD); (0xCE2, 0xCE3); (0xD00, 0xD01); (0xD3B, 0xD3C);
   (0xD41, 0xD44); (0xD4D, 0xD4D); (0xD62, 0xD63); (0xD81, 0xD81); (0xDCA, 0xDCA);
   (0xDD2, 0xDD4); (0xDD6, 0xDD6); (0xE31, 0xE31); (0xE34, 0xE3A); (0xE46, 0xE4E);
   (0xEB1, 0xEB1); (0xEB4, 0xEBC); (0xEC6, 0xEC6); (0xEC8, 0xECD); (0xF18, 0xF19);
   (0xF35, 0xF35); (0xF37, 0xF37); (0xF39, 0xF39); (0xF71, 0xF7E); (0xF80, 0xF84);
   (0xF86, 0xF87); (0xF8D, 0xF97); (0xF99, 0xFBC); (0xFC6, 0xFC6); (0x102D, 0x1030);
   (0x1032, 0x1037); (0x1039, 0x103A); (0x103D, 0x103E); (0x1058, 0x1059); (0x105E, 0x1060);
   (0x1071, 0x1074); (0x1082, 0x1082); (0x1085, 0x1086); (0x108D, 0x108D); (0x109D, 0x109D);
   (0x10FC, 0x10FC); (0x135D, 0x135F); (0x1712, 0x1714); (0x1732, 0x1733); (0x1752, 0x1753);
   (0x1772, 0x1773); (0x17B4, 0x17B5); (0x17B7, 0x17BD); (0x17C6, 0x17C6); (0x17C9, 0x17D3);
   (0x17D7, 0x17D7); (0x17DD, 0x17DD); (0x180B, 0x180F); (0x1843, 0x1843); (0x1885, 0x1886);
   (0x18A9, 0x18A9); (0x1920, 0x1922); (0x1927, 0x1928); (0x1932, 0x1932); (0x1939, 0x193B);
   (0x1A17, 0x1A18); (0x1A1B, 0x1A1B); (0x1A56, 0x1A56); (0x1A58, 0x1A5E); (0x1A60, 0x1A60);
   (0x1A62, 0x1A62); (0x1A65, 0x1A6C); (0x1A73, 0x1A7C); (0x1A7F, 0x1A7F); (0x1AA7, 0x1AA7);
   (0x1AB0, 0x1ACE); (0x1B00, 0x1B03); (0x1B34, 0x1B34); (0x1B36, 0x1B3A); (0x1B3C, 0x1B3C);
   (0x1B42, 0x1B42); (0x1B6B, 0x1B73); (0x1B80, 0x1B81); (0x1BA2, 0x1BA5); (0x1BA8, 0x1BA9);
   (0x1BAB, 0x1BAD); (0x1BE6, 0x1BE6); (0x1BE8, 0x1BE9); (0x1BED, 0x1BED); (0x1BEF, 0x1BF1);
   (0x1C2C, 0x1C33); (0x1C36, 0x1C37); (0x1C78, 0x1C7D); (0x1CD0, 0x1CD2); (0x1CD4, 0x1CE0);
   (0x1CE2, 0x1CE8); (0x1CED, 0x1CED); (0x1CF4, 0x1CF4); (0x1CF8, 0x1CF9); (0x1D2C, 0x1D6A);
   (0x1D78, 0x1D78); (0x1D9B, 0x1DFF); (0x1FBD, 0x1FBD); (0x1FBF, 0x1FC1); (0x1FCD, 0x1FCF);
   (0x1FDD, 0x1FDF); (0x1FED, 0x1FEF); (0x1FFD, 0x1FFE); (0x200B, 0x200F); (0x2018, 0x2019);
   (0x2024, 0x2024); (0x2027, 0x2027); (0x202A, 0x202E); (0x2060, 0x2064); (0x2066, 0x206F);
   (0x2071, 0x2071); (0x207F, 0x207F); (0x2090, 0x209C); (0x20D0, 0x20F0); (0x2C7C, 0x2C7D);
   (0x2CEF, 0x2CF1); (0x2D6F, 0x2D6F); (0x2D7F, 0x2D7F); (0x2DE0, 0x2DFF); (0x2E2F, 0x2E2F);
   (0x3005, 0x3005); (0x302A, 0x302D); (0x3031, 0x3035); (0x303B, 0x303B); (0x3099, 0x309E);
   (0x30FC, 0x30FE); (0xA015, 0xA015); (0xA4F8, 0xA4FD); (0xA60C, 0xA60C); (0xA66F, 0xA672);
   (0xA674, 0xA67D); (0xA67F, 0xA67F); (0xA69C, 0xA69F); (0xA6F0, 0xA6F1); (0xA700, 0xA721);
   (0xA770, 0xA770); (0xA788, 0xA78A); (0xA7F2, 0xA7F4); (0xA7F8, 0xA7F9); (0xA802, 0xA802);
   (0xA806, 0xA806); (0xA80B, 0xA80B); (0xA825, 0xA826); (0xA82C, 0xA82C); (0xA8C4, 0xA8C5);
   (0xA8E0, 0xA8F1); (0xA8FF, 0xA8FF); (0xA926, 0xA92D); (0xA947, 0xA951); (0xA980, 0xA982);
   (0xA9B3, 0xA9B3); (0xA9B6, 0xA9B9); (0xA9BC, 0xA9BD); (0xA9CF, 0xA9CF); (0xA9E5, 0xA9E6);
   (0xAA29, 0xAA2E); (0xAA31, 0xAA32); (0xAA35, 0xAA36); (0xAA43, 0xAA43); (0xAA4C, 0xAA4C);
   (0xAA70, 0xAA70); (0xAA7C, 0xAA7C); (0xAAB0, 0xAAB0); (0xAAB2, 0xAAB4); (0xAAB7, 0xAAB8);
   (0xAABE, 0xAABF); (0xAAC1, 0xAAC1); (0xAADD, 0xAADD); (0xAAEC, 0xAAED); (0xAAF3, 0xAAF4);
   (0xAAF6, 0xAAF6); (0xAB5B, 0xAB5F); (0xAB69, 0xAB6B); (0xABE5, 0xABE5); (0xABE8, 0xABE8);
   (0xABED, 0xABED); (0xFB1E, 0xFB1E); (0xFBB2, 0xFBC2); (0xFE00, 0xFE0F); (0xFE13, 0xFE13);
   (0xFE20, 0xFE2F); (0xFE52, 0xFE52); (0xFE55, 0xFE55); (0xFEFF, 0xFEFF); (0xFF07, 0xFF07);
   (0xFF0E, 0xFF0E); (0xFF1A, 0xFF1A); (0xFF3E, 0xFF3E); (0xFF40, 0xFF40); (0xFF70, 0xFF70);
   (0xFF9E, 0xFF9F); (0xFFE3, 0xFFE3); (0xFFF9, 0xFFFB); (0x101FD, 0x101FD); (0x102E0, 0x102E0);
   (0x10376, 0x1037A); (0x10780, 0x10785); (0x10787, 0x107B0); (0x107B2, 0x107BA); (0x10A01, 0x10A03);
   (0x10A05, 0x10A06); (0x10A0C, 0x10A0F); (0x10A38, 0x10A3A); (0x10A3F, 0x10A3F); (0x10AE5, 0x10AE6);
   (0x10D24, 0x10D27); (0x10EAB, 0x10EAC); (0x10F46, 0x10F50); (0x10F82, 0x10F85); (0x11001, 0x11001);
   (0x11038, 0x11046); (0x11070, 0x11070); (0x11073, 0x11074); (0x1107F, 0x11081); (0x110B3, 0x110B6);
   (0x110B9, 0x110BA); (0x110BD, 0x110BD); (0x110C2, 0x110C2); (0x110CD, 0x110CD); (0x11100, 0x11102);
   (0x11127, 0x1112B); (0x1112D, 0x11134); (0x11173, 0x11173); (0x11180, 0x11181); (0x111B6, 0x111BE);
   (0x111C9, 0x111CC); (0x111CF, 0x111CF); (0x1122F, 0x11231); (0x11234, 0x11234); (0x11236, 0x11237);
   (0x1123E, 0x1123E); (0x112DF, 0x112DF); (0x112E3, 0x112EA); (0x11300, 0x11301); (0x1133B, 0x1133C);
   (0x11340, 0x11340); (0x11366, 0x1136C); (0x11370, 0x11374); (0x11438, 0x1143F); (0x11442, 0x11444);
   (0x11446, 0x11446); (0x1145E, 0x1145E); (0x114B3, 0x114B8); (0x114BA, 0x114BA); (0x114BF, 0x114C0);
   (0x114C2, 0x114C3); (0x115B2, 0x115B5); (0x115BC, 0x115BD); (0x115BF, 0x115C0); (0x115DC, 0x115DD);
   (0x11633, 0x1163A); (0x1163D, 0x1163D); (0x1163F, 0x11640); (0x116AB, 0x116AB); (0x116AD, 0x116AD);
   (0x116B0, 0x116B5); (0x116B7, 0x116B7); (0x1171D, 0x1171F); (0x11722, 0x11725); (0x11727, 0x1172B);
   (0x1182F, 0x11837); (0x11839, 0x1183A); (0x1193B, 0x1193C); (0x1193E, 0x1193E); (0x11943, 0x11943);
   (0x119D4, 0x119D7); (0x119DA, 0x119DB); (0x119E0, 0x119E0); (0x11A01, 0x11A0A); (0x11A33, 0x11A38);
   (0x11A3B, 0x11A3E); (0x11A47, 0x11A47); (0x11A51, 0x11A56); (0x11A59, 0x11A5B); (0x11A8A, 0x11A96);
   (0x11A98, 0x11A99); (0x11C30, 0x11C36); (0x11C38, 0x11C3D); (0x11C3F, 0x11C3F); (0x11C92, 0x11CA7);
   (0x11CAA, 0x11CB0); (0x11CB2, 0x11CB3); (0x11CB5, 0x11CB6); (0x11D31, 0x11D36); (0x11D3A, 0x11D3A);
   (0x11D3C, 0x11D3D); (0x11D3F, 0x11D45); (0x11D47, 0x11D47); (0x11D90, 0x11D91); (0x11D95, 0x11D95);
   (0x11D97, 0x11D97); (0x11EF3, 0x11EF4); (0x13430, 0x13438); (0x16AF0, 0x16AF4); (0x16B30, 0x16B36);
   (0x16B40, 0x16B43); (0x16F4F, 0x16F4F); (0x16F8F, 0x16F9F); (0x16FE0, 0x16FE1); (0x16FE3, 0x16FE4);
   (0x1AFF0, 0x1AFF3); (0x1AFF5, 0x1AFFB); (0x1AFFD, 0x1AFFE); (0x1BC9D, 0x1BC9E); (0x1BCA0, 0x1BCA3);
   (0x1CF00, 0x1CF2D); (0x1CF30, 0x1CF46); (0x1D167, 0x1D169); (0x1D173, 0x1D182); (0x1D185, 0x1D18B);
   (0x1D1AA, 0x1D1AD); (0x1D242, 0x1D244); (0x1DA00, 0x1DA36); (0x1DA3B, 0x1DA6C); (0x1DA75, 0x1DA75);
   (0x1DA84, 0x1DA84); (0x1DA9B, 0x1DA9F); (0x1DAA1, 0x1DAAF); (0x1E000, 0x1E006); (0x1E008, 0x1E018);
   (0x1E01B, 0x1E021); (0x1E023, 0x1E024); (0x1E026, 0x1E02A); (0x1E130, 0x1E13D); (0x1E2AE, 0x1E2AE);
   (0x1E2EC, 0x1E2EF); (0x1E8D0, 0x1E8D6); (0x1E944, 0x1E94B); (0x1F3FB, 0x1F3FF); (0xE0001, 0xE0001);
   (0xE0020, 0xE007F); (0xE0100, 0xE01EF)]%N.
(** The characters with the property Cased that are not Case_Ignorable. *)
Definition cased_ranges : list (N * N) :=
  [(0x41, 0x5A); (0x61, 0x7A); (0xAA, 0xAA); (0xB5, 0xB5); (0xBA, 0xBA);
   (0xC0, 0xD6); (0xD8, 0xF6); (0xF8, 0x1BA); (0x1BC, 0x1BF); (0x1C4, 0x293);
   (0x295, 0x2AF); (0x370, 0x373); (0x376, 0x377); (0x37B, 0x37D); (0x37F, 0x37F);
   (0x386, 0x386); (0x388, 0x38A); (0x38C, 0x38C); (0x38E, 0x3A1); (0x3A3, 0x3F5);
   (0x3F7, 0x481); (0x48A, 0x52F); (0x531, 0x556); (0x560, 0x588); (0x10A0, 0x10C5);
   (0x10C7, 0x10C7); (0x10CD, 0x10CD); (0x10D0, 0x10FA); (0x10FD, 0x10FF); (0x13A0, 0x13F5);
   (0x13F8, 0x13FD); (0x1C80, 0x1C88); (0x1C90, 0x1CBA); (0x1CBD, 0x1CBF); (0x1D00, 0x1D2B);
   (0x1D6B, 0x1D77); (0x1D79, 0x1D9A); (0x1E00, 0x1F15); (0x1F18, 0x1F1D); (0x1F20, 0x1F45);
   (0x1F48, 0x1F4D); (0x1F50, 0x1F57); (0x1F59, 0x1F59); (0x1F5B, 0x1F5B); (0x1F5D, 0x1F5D);
   (0x1F5F, 0x1F7D); (0x1F80, 0x1FB4); (0x1FB6, 0x1FBC); (0x1FBE, 0x1FBE); (0x1FC2, 0x1FC4);
   (0x1FC6, 0x1FCC); (0x1FD0, 0x1FD3); (0x1FD6, 0x1FDB); (0x1FE0, 0x1FEC); (0x1FF2, 0x1FF4);
   (0x1FF6, 0x1FFC); (0x2102, 0x2102); (0x2107, 0x2107); (0x210A, 0x2113); (0x2115, 0x2115);
   (0x2119, 0x211D); (0x2124, 0x2124); (0x2126, 0x2126); (0x2128, 0x2128); (0x212A, 0x212D);
   (0x212F, 0x2134); (0x2139, 0x2139); (0x213C, 0x213F); (0x2145, 0x2149); (0x214E, 0x214E);
   (0x2160, 0x217F); (0x2183, 0x2184); (0x24B6, 0x24E9); (0x2C00, 0x2C7B); (0x2C7E, 0x2CE4);
   (0x2CEB, 0x2CEE); (0x2CF2, 0x2CF3); (0x2D00, 0x2D25); (0x2D27, 0x2D27); (0x2D2D, 0x2D2D);
   (0xA640, 0xA66D); (0xA680, 0xA69B); (0xA722, 0xA76F); (0xA771, 0xA787); (0xA78B, 0xA78E);
   (0xA790, 0xA7CA); (0xA7D0, 0xA7D1); (0xA7D3, 0xA7D3); (0xA7D5, 0xA7D9); (0xA7F5, 0xA7F6);
   (0xA7FA, 0xA7FA); (0xAB30, 0xAB5A); (0xAB60, 0xAB68); (0xAB70, 0xABBF); (0xFB00, 0xFB06);
   (0xFB13, 0xFB17); (0xFF21, 0xFF3A); (0xFF41, 0xFF5A); (0x10400, 0x1044F); (0x104B0, 0x104D3);
   (0x104D8, 0x104FB); (0x10570, 0x1057A); (0x1057C, 0x1058A); (0x1058C, 0x10592); (0x10594, 0x10595);
   (0x10597, 0x105A1); (0x105A3, 0x105B1); (0x105B3, 0x105B9); (0x105BB, 0x105BC); (0x10C80, 0x10CB2);
   (0x10CC0, 0x10CF2); (0x118A0, 0x118DF); (0x16E40, 0x16E7F); (0x1D400, 0x1D454); (0x1D456, 0x1D49C);
   (0x1D49E, 0x1D49F); (0x1D4A2, 0x1D4A2); (0x1D4A5, 0x1D4A6); (0x1D4A9, 0x1D4AC); (0x1D4AE, 0x1D4B9);
   (0x1D4BB, 0x1D4BB); (0x1D4BD, 0x1D4C3); (0x1D4C5, 0x1D505); (0x1D507, 0x1D50A); (0x1D50D, 0x1D514);
   (0x1D516, 0x1D51C); (0x1D51E, 0x1D539); (0x1D53B, 0x1D53E); (0x1D540, 0x1D544); (0x1D546, 0x1D546);
   (0x1D54A, 0x1D550); (0x1D552, 0x1D6A5); (0x1D6A8, 0x1D6C0); (0x1D6C2, 0x1D6DA); (0x1D6DC, 0x1D6FA);
   (0x1D6FC, 0x1D714); (0x1D716, 0x1D734); (0x1D736, 0x1D74E); (0x1D750, 0x1D76E); (0x1D770, 0x1D788);
   (0x1D78A, 0x1D7A8); (0x1D7AA, 0x1D7C2); (0x1D7C4, 0x1D7CB); (0x1DF00, 0x1DF09); (0x1DF0B, 0x1DF1E);
   (0x1E900, 0x1E943); (0x1F130, 0x1F149); (0x1F150, 0x1F169); (0x1F170, 0x1F189)]%N.

Definition in_ranges (ranges : list (N * N)) (c : N) : bool :=
  existsb (λ '(first, last), (first <=? c) && (c <=? last))%N ranges.

(** Case_Ignorable. *)
Definition case_ignorable (c : N) : bool := in_ranges case_ignorable_ranges c.

(** Cased, for a character that is not case-ignorable. *)
Definition cased (c : N) : bool := in_ranges cased_ranges c.

(** The simple lowercase mapping of UnicodeData. *)
Definition simple_lowercase (c : N) : N :=
  match
    List.find
      (λ '(first, last, step, _),
         (first <=? c) && (c <=? last) && ((c - first) mod step =? 0))%N
      lowercase_runs
  with
  | Some (first, _, _, target) => (target + (c - first))%N
  | None => c
  end.

(** The first character that is not case-ignorable. *)
Fixpoint skip_ignorable (text : list N) : option N :=
  match text with
  | [] => None
  | c :: rest => if case_ignorable c then skip_ignorable rest else Some c
  end.

Definition cased_next (text : list N) : bool :=
  match skip_ignorable text with
  | Some c => cased c
  | None => false
  end.

(** The condition Final_Sigma of SpecialCasing: a cased letter before,
    none after, case-ignorable characters skipped on both sides.
    [before] holds the preceding characters, nearest first. *)
Definition final_sigma (before after : list N) : bool :=
  cased_next before && negb (cased_next after).

(** Lowercase_Mapping of one character in its context. *)
Definition lowercase_mapping (before : list N) (c : N) (after : list N) : list N :=
  if (c =? 0x3A3)%N then [if final_sigma before after then 0x3C2 else 0x3C3]%N
  else if (c =? 0x130)%N then [0x69; 0x307]%N
  else [simple_lowercase c].

(** toLowercase of the default case conversion. *)
Fixpoint toLowercase (before : list N) (text : list N) : list N :=
  match text with
  | [] => []
  | c :: rest => lowercase_mapping before c rest ++ toLowercase (c :: before) rest
  end.

(** *** UTF-8 *)

(** A byte that is not part of a well-formed sequence travels as a value
    beyond the code points, and is written back as it was. *)
Definition stray (byte : N) : N := (0x110000 + byte)%N.

Definition continuation (b : ascii) : option N :=
  let n := N_of_ascii b in
  if ((0x80 <=? n) && (n <? 0xC0))%N then Some (n - 0x80)%N else None.

Definition scalar (low high : N) (c : N) : bool :=
  ((low <=? c) && (c <=? high) && negb ((0xD800 <=? c) && (c <=? 0xDFFF)))%N.

Fixpoint utf8_decode (s : string) : list N :=
  match s with
  | EmptyString => []
  | String b0 s1 =>
      let n0 := N_of_ascii b0 in
      let alone := (if n0 <? 0x80 then n0 else stray n0)%N :: utf8_decode s1 in
      if (n0 <? 0xC0)%N then alone
      else
        match s1 with
        | EmptyString => alone
        | String b1 s2 =>
            match continuation b1 with
            | None => alone
            | Some n1 =>
                if (n0 <? 0xE0)%N then
                  let c := ((n0 - 0xC0) * 0x40 + n1)%N in
                  if scalar 0x80 0x7FF c then c :: utf8_decode s2 else alone
                else
                  match s2 with
                  | EmptyString => alone
                  | String b2 s3 =>
                      match continuation b2 with
                      | None => alone
                      | Some n2 =>
                          if (n0 <? 0xF0)%N then
                            let c := ((n0 - 0xE0) * 0x1000 + n1 * 0x40 + n2)%N in
                            if scalar 0x800 0xFFFF c then c :: utf8_decode s3 else alone
                          else
                            match s3 with
                            | EmptyString => alone
                            | String b3 s4 =>
                                match continuation b3 with
                                | None => alone
                                | Some n3 =>
                                    let c :=
                                      ((n0 - 0xF0) * 0x40000 + n1 * 0x1000
                                       + n2 * 0x40 + n3)%N in
                                    if (n0 <? 0xF8)%N && scalar 0x10000 0x10FFFF c
                                    then c :: utf8_decode s4 else alone
                                end
                            end
                      end
                  end
            end
        end
  end.

Definition byte (n : N) : ascii := ascii_of_N (n mod 0x100).

Definition utf8_encode_one (c : N) : string :=
  if (c <? 0x80)%N then String (byte c) EmptyString
  else if (c <? 0x800)%N then
    String (byte (0xC0 + c / 0x40)) (String (byte (0x80 + c mod 0x40)) EmptyString)
  else if (c <? 0x10000)%N then
    String (byte (0xE0 + c / 0x1000))
      (String (byte (0x80 + (c / 0x40) mod 0x40))
         (String (byte (0x80 + c mod 0x40)) EmptyString))
  else if (c <? 0x110000)%N then
    String (byte (0xF0 + c / 0x40000))
      (String (byte (0x80 + (c / 0x1000) mod 0x40))
         (String (byte (0x80 + (c / 0x40) mod 0x40))
            (String (byte (0x80 + c mod 0x40)) EmptyString)))
  else String (byte (c - 0x110000)) EmptyString.

Fixpoint utf8_encode (text : list N) : string :=
  match text with
  | [] => EmptyString
  | c :: rest => utf8_encode_one c +:+ utf8_encode rest
  end.

End Unicode.

(** ** JavaScript base: completions, truthiness, strings *)

Module Js.

Inductive Error : Type := TypeError.

(** The result of running a piece of code: a value, or a thrown error. *)
Inductive Completion (A : Type) : Type :=
| Normal (a : A)
| Throw (e : Error).
Arguments Normal {A} a.
Arguments Throw {A} e.

Definition bind {A B} (m : Completion A) (k : A → Completion B) : Completion B :=
  match m with
  | Normal a => k a
  | Throw e => Throw e
  end.

#[global] Instance completion_ret : MRet Completion := λ A a, Normal a.
#[global] Instance completion_bind : MBind Completion := λ A B k m, bind m k.

(** [o.f] where [o] may be [undefined]. *)
Definition prop {A B} (f : A → B) (o : option A) : Completion B :=
  match o with
  | Some a => Normal (f a)
  | None => Throw TypeError
  end.

(** [o?.f]. *)
Definition opt_prop {A B} (f : A → B) (o : option A) : option B := f <$> o.

(** Truthiness of an object reference that may be [undefined]. *)
Definition defined {A} (o : option A) : bool :=
  match o with Some _ => true | None => false end.

(** Truthiness of a [string | undefined]. *)
Definition truthy (o : option string) : bool :=
  match o with
  | Some s => negb (String.eqb s "")
  | None => false
  end.

(** [a || b] for [a : string | undefined] and a string-valued [b]; the
    right operand is evaluated only when the left one is falsy. *)
Definition or_else (a : option string) (b : Completion string) : Completion string :=
  match a with
  | Some s => if truthy a then Normal s else b
  | None => b
  end.

(** [Map.prototype.get] with a key that may be [undefined]. *)
Definition map_get {V} (m : gmap string V) (k : option string) : option V :=
  match k with
  | Some i => m !! i
  | None => None
  end.

(** [Array.prototype.map] with a callback that may throw. *)
Fixpoint array_map {A B} (f : A → Completion B) (l : list A) : Completion (list B) :=
  match l with
  | [] => Normal []
  | x :: l' => y ← f x; ys ← array_map f l'; mret (y :: ys)
  end.

(** [String.prototype.toLowerCase]: the code points of the string, put to
    lower case by the default case conversion, as a string again. *)
Definition toLowerCase (s : string) : string :=
  Unicode.utf8_encode (Unicode.toLowercase [] (Unicode.utf8_decode s)).

(** [s.startsWith(t)]. *)
Fixpoint startsWith (s t : string) {struct t} : bool :=
  match t, s with
  | EmptyString, _ => true
  | String _ _, EmptyString => false
  | String b t', String a s' => Ascii.eqb a b && startsWith s' t'
  end.

(** [String.prototype.includes]: [t] occurs in [s] at some position. *)
Fixpoint includes (s t : string) : bool :=
  startsWith s t ||
  match s with
  | EmptyString => false
  | String _ s' => includes s' t
  end.

(** [a.localeCompare(b)], as the sign of the comparison by character
    code.  The page calls it on wall-clock times only ("09:00",
    "13:30:00"): digits at the digit positions and colons at the colon
    positions, where the collation order and the code order agree. *)
Fixpoint localeCompare (a b : string) : Z :=
  match a, b with
  | EmptyString, EmptyString => 0
  | EmptyString, String _ _ => -1
  | String _ _, EmptyString => 1
  | String x a', String y b' =>
      match (N_of_ascii x ?= N_of_ascii y)%N with
      | Eq => localeCompare a' b'
      | Lt => -1
      | Gt => 1
      end
  end.

(** [Array.prototype.sort] with a comparator: the sort is stable
    (ECMAScript 2019), so an element moves in front of another one only
    when the comparator puts it strictly before it. *)
Fixpoint sort_insert {A} (cmp : A → A → Z) (x : A) (l : list A) : list A :=
  match l with
  | [] => [x]
  | y :: l' => if cmp x y <=? 0 then x :: y :: l' else y :: sort_insert cmp x l'
  end.

Fixpoint sort {A} (cmp : A → A → Z) (l : list A) : list A :=
  match l with
  | [] => []
  | x :: l' => sort_insert cmp x (sort cmp l')
  end.

(** A calendar day, counted from 1970-01-01 in local time. *)
Record Date : Type := { epochDay : Z }.

(** [Date.prototype.getDay]: 0 is Sunday; 1970-01-01 was a Thursday. *)
Definition getDay (d : Date) : Z := (epochDay d + 4) `mod` 7.

(** date-fns [format(d, 'EEEE')]: the full English name of the weekday. *)
Definition format_EEEE (d : Date) : string :=
  match getDay d with
  | 0 => "Sunday"
  | 1 => "Monday"
  | 2 => "Tuesday"
  | 3 => "Wednesday"
  | 4 => "Thursday"
  | 5 => "Friday"
  | _ => "Saturday"
  end.

(** date-fns [addDays]. *)
Definition addDays (d : Date) (n : Z) : Date := {| epochDay := epochDay d + n |}.

(** date-fns [startOfWeek(d, { weekStartsOn })]: back to the last day whose
    [getDay] is [weekStartsOn]. *)
Definition startOfWeek (d : Date) (weekStartsOn : Z) : Date :=
  let day := getDay d in
  let diff := (if day <? weekStartsOn then 7 else 0) + day - weekStartsOn in
  addDays d (- diff).

(** [Date.prototype.getDate]: the day of the month of a day counted from
    1970-01-01, in the proleptic Gregorian calendar (eras of 400 years
    starting on a first of March). *)
Definition getDate (d : Date) : Z :=
  let z := epochDay d + 719468 in
  let era := z / 146097 in
  let doe := z - era * 146097 in
  let yoe := (doe - doe / 1460 + doe / 36524 - doe / 146096) / 365 in
  let doy := doe - (365 * yoe + yoe / 4 - yoe / 100) in
  let mp := (5 * doy + 2) / 153 in
  doy - (153 * mp + 2) / 5 + 1.

(** date-fns [format(d, 'd')]: the day of the month, not padded. *)
Definition format_d (d : Date) : string := pretty (getDate d).

(** date-fns [format(d, 'EEE')]: the short English name of the weekday. *)
Definition format_EEE (d : Date) : string :=
  match getDay d with
  | 0 => "Sun"
  | 1 => "Mon"
  | 2 => "Tue"
  | 3 => "Wed"
  | 4 => "Thu"
  | 5 => "Fri"
  | _ => "Sat"
  end.

(** [a || b] for [a : string | undefined] and a string [b]. *)
Definition or_default (a : option string) (b : string) : string :=
  match a with
  | Some s => if truthy a then s else b
  | None => b
  end.

End Js.

(** ** The routine page: [src/pages/RoutinePage.tsx] *)

Module RoutinePage.
Import Js.

(** *** Data model *)

Record Course : Type := {
  course_id : string;
  course_name : string;
  course_code : string
}.

Record Teacher : Type := {
  teacher_id : string;
  teacher_name : string
}.

(** A slot as stored in a routine.  The references and the denormalized
    display fields are optional. *)
Record Slot : Type := {
  slot_id : string;
  slot_dayOfWeek : string;
  slot_startTime : string;
  slot_endTime : string;
  slot_courseId : option string;
  slot_teacherId : option string;
  slot_courseName : option string;
  slot_teacherName : option string;
  slot_roomNumber : option string;
  slot_section : option string
}.

Record Routine : Type := {
  routine_id : string;
  routine_name : string;
  routine_semester : string;
  routine_isActive : bool;
  routine_slots : option (list Slot)
}.

(** The object [{...slot, course, teacher, courseName, courseCode,
    teacherName}]: the slot's own properties are kept in [es_slot], and
    the three display strings written after the spread override the
    slot's properties of the same name. *)
Record EnrichedSlot : Type := {
  es_slot : Slot;
  es_course : option Course;
  es_teacher : option Teacher;
  es_courseName : string;
  es_courseCode : string;
  es_teacherName : string
}.

Definition es_id (e : EnrichedSlot) : string := slot_id (es_slot e).
Definition es_dayOfWeek (e : EnrichedSlot) : string := slot_dayOfWeek (es_slot e).
Definition es_startTime (e : EnrichedSlot) : string := slot_startTime (es_slot e).
Definition es_roomNumber (e : EnrichedSlot) : option string := slot_roomNumber (es_slot e).

(** *** [currentRoutine] (lines 57-62) *)

Definition currentRoutine (routines : list Routine) (selectedRoutineId : string)
  : option Routine :=
  if truthy (Some selectedRoutineId) then
    List.find (λ r, String.eqb (routine_id r) selectedRoutineId) routines
  else
    match List.find (λ r, routine_isActive r) routines with
    | Some r => Some r
    | None => head routines
    end.

(** *** The early returns of the component (lines 166-196) *)

Inductive View : Type :=
| Spinner
| ErrorLoadingRoutines (message : string)
| NoRoutineAvailable
| RoutineView (r : Routine).

Definition render (loading : bool) (error : option string)
    (routines : list Routine) (selectedRoutineId : string) : View :=
  if loading then Spinner
  else if truthy error then ErrorLoadingRoutines (default "" error)
  else match currentRoutine routines selectedRoutineId with
       | None => NoRoutineAvailable
       | Some r => RoutineView r
       end.

(** *** The enrichment effect (lines 92-125) *)

(** [courses.forEach(course => courseMap.set(course.id, course))] on a
    fresh map. *)
Definition courseMap (courses : list Course) : gmap string Course :=
  foldl (λ m course, <[course_id course := course]> m) ∅ courses.

Definition teacherMap (teachers : list Teacher) : gmap string Teacher :=
  foldl (λ m teacher, <[teacher_id teacher := teacher]> m) ∅ teachers.

(** The callback of [currentRoutine.slots.map] (lines 105-122). *)
Definition enrich_slot (cm : gmap string Course) (tm : gmap string Teacher)
    (slot : Slot) : Completion EnrichedSlot :=
  let course :=
    if truthy (slot_courseId slot) then map_get cm (slot_courseId slot) else None in
  let teacher :=
    if truthy (slot_teacherId slot) then map_get tm (slot_teacherId slot) else None in
  courseName ← or_else (slot_courseName slot)
                 (if defined course then prop course_name course
                  else Normal "Unknown Course");
  courseCode ← or_else (opt_prop course_code course) (Normal "N/A");
  teacherName ← or_else (slot_teacherName slot)
                  (if defined teacher then prop teacher_name teacher
                   else Normal "Unknown Teacher");
  mret {| es_slot := slot;
          es_course := course;
          es_teacher := teacher;
          es_courseName := courseName;
          es_courseCode := courseCode;
          es_teacherName := teacherName |}.

(** The body of the effect; its result is the next [enrichedSlots]
    state.  After the guard [!currentRoutine?.slots], the code reads
    [currentRoutine.slots] and calls [.map] on the value read: two places
    where an undefined receiver would throw. *)
Definition enriched (currentRoutine : option Routine)
    (courses : list Course) (teachers : list Teacher)
  : Completion (list EnrichedSlot) :=
  if negb (defined (currentRoutine ≫= routine_slots)) then Normal []
  else
    slots ← prop routine_slots currentRoutine;
    slots ← prop id slots;
    array_map (enrich_slot (courseMap courses) (teacherMap teachers)) slots.

(** *** [filteredSlots] (lines 127-139) *)

(** [field?.toLowerCase().includes(searchTerm.toLowerCase())], as the
    truth value the surrounding [||] sees: [undefined] is falsy. *)
Definition field_includes (field : option string) (searchTerm : string) : bool :=
  match opt_prop toLowerCase field with
  | Some lowered => includes lowered (toLowerCase searchTerm)
  | None => false
  end.

(** On an enriched slot the three display strings are always strings; the
    room number is the slot's own and may be undefined. *)
Definition matchesSearch (searchTerm : string) (slot : EnrichedSlot) : bool :=
  String.eqb searchTerm ""
  || field_includes (Some (es_courseName slot)) searchTerm
  || field_includes (Some (es_courseCode slot)) searchTerm
  || field_includes (es_roomNumber slot) searchTerm
  || field_includes (Some (es_teacherName slot)) searchTerm.

Definition matchesDay (selectedDate : Date) (slot : EnrichedSlot) : bool :=
  String.eqb (format_EEEE selectedDate) (es_dayOfWeek slot).

Definition filteredSlots (enrichedSlots : list EnrichedSlot)
    (searchTerm : string) (selectedDate : Date) : list EnrichedSlot :=
  List.filter (λ slot, matchesSearch searchTerm slot && matchesDay selectedDate slot)
    enrichedSlots.

(** *** The slots as presented (lines 384-385) *)

Definition presentedSlots (enrichedSlots : list EnrichedSlot)
    (searchTerm : string) (selectedDate : Date) : list EnrichedSlot :=
  sort (λ a b, localeCompare (es_startTime a) (es_startTime b))
    (filteredSlots enrichedSlots searchTerm selectedDate).

(** Enrichment followed by the filter: from the routine and the two
    reference sets to the slots of the selected day. *)
Definition pipeline (currentRoutine : option Routine)
    (courses : list Course) (teachers : list Teacher)
    (searchTerm : string) (selectedDate : Date) : Completion (list EnrichedSlot) :=
  enrichedSlots ← enriched currentRoutine courses teachers;
  mret (filteredSlots enrichedSlots searchTerm selectedDate).

(** *** The effect that adopts the default routine (lines 64-68) *)

(** The next [selectedRoutineId]: the id of the current routine when that
    id is truthy and nothing is selected, the selection as it is
    otherwise. *)
Definition adoptCurrentRoutine (routines : list Routine) (selectedRoutineId : string)
  : string :=
  let current := currentRoutine routines selectedRoutineId in
  if truthy (opt_prop routine_id current) && negb (truthy (Some selectedRoutineId))
  then default selectedRoutineId (opt_prop routine_id current)
  else selectedRoutineId.

(** *** [handleRoutineChange] (lines 70-76) *)

(** The next [selectedRoutineId] and the location the window is sent to,
    if any. *)
Definition handleRoutineChange (routineId : string) (selectedRoutineId : string)
  : string * option string :=
  if String.eqb routineId "create-new"
  then (selectedRoutineId, Some "/#admin?tab=routine")
  else (routineId, None).

(** The [value]s of the options of the routine selector (lines 228-237):
    one per routine, then the entry for administrators. *)
Definition routineOptions (routines : list Routine) (isAdmin : bool) : list string :=
  map routine_id routines ++ (if isAdmin then ["create-new"] else []).

(** *** [weekDays] (lines 78-89) *)

Record WeekDay : Type := {
  wd_date : Date;
  wd_dayNum : string;
  wd_dayName : string;
  wd_isSelected : bool
}.

Definition weekDays (selectedDate : Date) : list WeekDay :=
  let start := startOfWeek selectedDate 6 in
  map (λ i,
      let date := addDays start i in
      {| wd_date := date;
         wd_dayNum := format_d date;
         wd_dayName := format_EEE date;
         wd_isSelected := String.eqb (format_EEEE date) (format_EEEE selectedDate) |})
    [0; 1; 2; 3; 4; 5].

(** The buttons around the date heading (lines 318-342). *)
Definition previousDay (selectedDate : Date) : Date := addDays selectedDate (-1).
Definition nextDay (selectedDate : Date) : Date := addDays selectedDate 1.

(** *** The card of a slot (lines 416-450) *)

Definition cardTitle (slot : EnrichedSlot) : string :=
  or_default (Some (es_courseName slot)) "No Course Name".

Definition cardCourse (slot : EnrichedSlot) : string :=
  or_default (Some (es_courseCode slot)) "N/A".

Definition cardSection (slot : EnrichedSlot) : string :=
  or_default (slot_section (es_slot slot)) "N/A".

Definition cardRoom (slot : EnrichedSlot) : string :=
  or_default (es_roomNumber slot) "N/A".

(** [slot.teacher && <button>{getInitials(slot.teacherName || 'Unknown')}
    </button>]: the label of the teacher button, when there is one.
    [getInitials] comes from [utils/stringUtils]. *)
Definition cardTeacher (getInitials : string → string) (slot : EnrichedSlot)
  : option string :=
  if defined (es_teacher slot)
  then Some (getInitials (or_default (Some (es_teacherName slot)) "Unknown"))
  else None.

(** *** The list of classes (lines 372-455) *)

Inductive Classes : Type :=
| NoClassesScheduled (matching : option string)
| Cards (slots : list EnrichedSlot).

(** One render of the list, on the array the memo holds: what is shown, and
    the array afterwards.  [Array.prototype.sort] sorts in place and
    returns the array itself, so a render that reaches the cards leaves
    the memo's array sorted. *)
Definition renderClasses (filteredSlots : list EnrichedSlot) (searchTerm : string)
  : Classes * list EnrichedSlot :=
  if (length filteredSlots =? 0)%nat
  then (NoClassesScheduled (if truthy (Some searchTerm) then Some searchTerm else None),
        filteredSlots)
  else
    let sorted :=
      sort (λ a b, localeCompare (es_startTime a) (es_startTime b)) filteredSlots in
    (Cards sorted, sorted).

(** The render that follows [n] renders with the same dependencies: the
    memo hands out the same array, as the renders before left it. *)
Fixpoint rerender (n : nat) (filteredSlots : list EnrichedSlot) (searchTerm : string)
  : Classes * list EnrichedSlot :=
  match n with
  | O => renderClasses filteredSlots searchTerm
  | S n' => rerender n' (snd (renderClasses filteredSlots searchTerm)) searchTerm
  end.

(** *** One render and its effects *)

(** The two pieces of state the effects write. *)
Record PageState : Type := {
  st_selectedRoutineId : string;
  st_enrichedSlots : list EnrichedSlot
}.

(** The cards a render shows: it reads [enrichedSlots] from the state. *)
Definition cards (st : PageState) (searchTerm : string) (selectedDate : Date)
  : list EnrichedSlot :=
  presentedSlots (st_enrichedSlots st) searchTerm selectedDate.

(** The effects of lines 64-68 and 92-125, as they run after a render in
    state [st]: both work on the [currentRoutine] that render computed,
    and their writes are the state of the next render. *)
Definition runEffects (routines : list Routine) (courses : list Course)
    (teachers : list Teacher) (st : PageState) : Completion PageState :=
  let current := currentRoutine routines (st_selectedRoutineId st) in
  let selected := adoptCurrentRoutine routines (st_selectedRoutineId st) in
  enrichedSlots ← enriched current courses teachers;
  mret {| st_selectedRoutineId := selected; st_enrichedSlots := enrichedSlots |}.

End RoutinePage.

(** ** The offline test script: [test-offline.js] *)

Module OfflineTest.

(** The IndexedDB database [nesttask_offline_db] as the script meets it:
    the object stores it has, each with its number of records, and the
    stores whose count request fails, in the order their error events
    fire. *)
Record Database : Type := {
  stores : gmap string nat;
  failing : list string
}.

Record StoreData : Type := {
  storeName : string;
  count : nat;
  data : option string
}.

(** A promise, once settled. *)
Inductive Settled (A : Type) : Type :=
| Resolved (a : A)
| Rejected.
Arguments Resolved {A} a.
Arguments Rejected {A}.

Inductive ConsoleLine : Type :=
| FoundStores (names : list string)
| StoreNotFound (name : string)
| ErrorCounting (name : string)
| ItemsTable (rows : list (string * nat))
| AllRequiredDataFound
| MissingRequiredData
| TestComplete
| IndexedDBError
| FailedToOpenDatabase.

(** [getStoreData(db, storeName)] (lines 50-76): the line it writes, if
    any, and how its promise settles.  For a store the database lacks it
    warns and resolves at once, without a request; a count request that
    fails writes an error and rejects. *)
Definition getStoreData (db : Database) (name : string)
  : list ConsoleLine * Settled StoreData :=
  match stores db !! name with
  | None =>
      ([StoreNotFound name], Resolved {| storeName := name; count := 0; data := None |})
  | Some n =>
      if bool_decide (name ∈ failing db)
      then ([ErrorCounting name], Rejected)
      else ([], Resolved {| storeName := name; count := n;
                            data := if (0 <? n)%nat then Some "..." else None |})
  end.

Definition storesToCheck : list string :=
  ["routines"; "courses"; "teachers"; "tasks"; "userData"].

(** [Promise.all]: the values when every promise resolves. *)
Fixpoint promise_all {A} (promises : list (Settled A)) : Settled (list A) :=
  match promises with
  | [] => Resolved []
  | Rejected :: _ => Rejected
  | Resolved a :: rest =>
      match promise_all rest with
      | Resolved values => Resolved (a :: values)
      | Rejected => Rejected
      end
  end.

(** Lines 92-94. *)
Definition results (db : Database) : Settled (list StoreData) :=
  promise_all (map (λ name, snd (getStoreData db name)) storesToCheck).

(** Lines 102-106. *)
Definition hasRequiredData (results : list StoreData) : bool :=
  forallb (λ r,
      (String.eqb (storeName r) "routines" && (0 <? count r)%nat)
      || (String.eqb (storeName r) "courses" && (0 <? count r)%nat)
      || (String.eqb (storeName r) "teachers" && (0 <? count r)%nat))
    results.

(** The count requests that fail, in the order of their error events: the
    failing stores that are checked and that the database has. *)
Definition failures (db : Database) : list string :=
  List.filter
    (λ name, bool_decide (name ∈ storesToCheck) && bool_decide (is_Some (stores db !! name)))
    (remove_dups (failing db)).

(** What the script writes to the console from [openDB()] on (lines
    79-117); [opened] is the database, or nothing when it cannot be
    opened.  The warnings for lacking stores are written while the
    requests are made.  The first request to fail rejects [Promise.all],
    which ends the callback and runs the [catch]; requests failing later
    still write their error. *)
Definition report (opened : option Database) : list ConsoleLine :=
  match opened with
  | None => [IndexedDBError; FailedToOpenDatabase]
  | Some db =>
      [FoundStores (map fst (map_to_list (stores db)))]
      ++ List.filter (λ line, match line with StoreNotFound _ => true | _ => false end)
           (concat (map (λ name, fst (getStoreData db name)) storesToCheck))
      ++ match results db with
         | Resolved rows =>
             [ItemsTable (map (λ r, (storeName r, count r)) rows);
              if hasRequiredData rows then AllRequiredDataFound else MissingRequiredData;
              TestComplete]
         | Rejected =>
             match failures db with
             | [] => []
             | first :: later =>
                 [ErrorCounting first; FailedToOpenDatabase] ++ map ErrorCounting later
             end
         end
  end.

End OfflineTest.

(** ** The sync coordinator behind [prefetchRoutineData] *)

Module SyncCoordinator.

Inductive Kind : Type := routine | course | teacher.

#[global] Instance kind_eq_dec : EqDecision Kind.
Proof. solve_decision. Defined.

Inductive Outcome : Type :=
| Fetched (records : list string)
| Failed.

Abbreviation Caller := nat.

(** The coordinator's state: the connectivity signal, the pending-result
    handle of each kind (the callers attached to the fetch in flight), the
    cached record set of each kind, and two traces: the remote fetches
    issued so far and the outcomes handed to callers. *)
Record State : Type := {
  offline : bool;
  inflight : Kind → option (list Caller);
  cache : Kind → option (list string);
  issued : list Kind;
  delivered : list (Caller * Kind * Outcome)
}.

Definition update {V} (f : Kind → V) (k : Kind) (v : V) : Kind → V :=
  λ k', if decide (k' = k) then v else f k'.

(** Modelled from the spec: the hook [useRoutines], which defines
    [prefetchRoutineData], is not among the sources; this is one kind's
    share of [prefetch] as section 4.2 gives it.  A kind already in
    flight is not fetched again and the caller attaches to the pending
    result (step 5); otherwise the connectivity signal is read, and
    offline the fetch is skipped (step 2), online the kind is marked in
    flight and [fetchAll(kind)] is issued (step 1). *)
Definition prefetch_kind (c : Caller) (st : State) (k : Kind) : State :=
  match inflight st k with
  | Some waiting =>
      {| offline := offline st;
         inflight := update (inflight st) k (Some (waiting ++ [c]));
         cache := cache st;
         issued := issued st;
         delivered := delivered st |}
  | None =>
      if offline st then st
      else
        {| offline := offline st;
           inflight := update (inflight st) k (Some [c]);
           cache := cache st;
           issued := issued st ++ [k];
           delivered := delivered st |}
  end.

(** Modelled from the spec: [prefetch(kinds)] of section 4.2, the
    operation the page calls as [prefetchRoutineData]; the hook that
    defines it is not among the sources. *)
Definition prefetch (c : Caller) (kinds : list Kind) (st : State) : State :=
  foldl (prefetch_kind c) st kinds.

(** Modelled from the spec: the completion of the fetch of a kind
    (section 4.2, steps 3 and 4), absent from the sources like the rest of
    the hook.  Success replaces the cached set, failure leaves it; both
    clear the in-flight marker and hand the one outcome to every attached
    caller. *)
Definition settle (k : Kind) (o : Outcome) (st : State) : State :=
  match inflight st k with
  | None => st
  | Some waiting =>
      {| offline := offline st;
         inflight := update (inflight st) k None;
         cache := match o with
                  | Fetched records => update (cache st) k (Some records)
                  | Failed => cache st
                  end;
         issued := issued st;
         delivered := delivered st ++ map (λ c, (c, k, o)) waiting |}
  end.

(** The page's call (line 54) asks for the three kinds. *)
Definition prefetchRoutineData (c : Caller) (st : State) : State :=
  prefetch c [routine; course; teacher] st.

(** The pending-result handle of [k] after a call by [c]. *)
Definition attached (c : Caller) (st : State) (k : Kind) : option (list Caller) :=
  match inflight st k with
  | Some waiting => Some (waiting ++ [c])
  | None => if offline st then None else Some [c]
  end.

(** The fetch a call issues for [k], if any. *)
Definition to_fetch (st : State) (k : Kind) : list Kind :=
  match inflight st k with
  | Some _ => []
  | None => if offline st then [] else [k]
  end.

(** Online, nothing in flight, nothing cached. *)
Definition idle : State :=
  {| offline := false; inflight := λ _, None; cache := λ _, None;
     issued := []; delivered := [] |}.

(** The fetches of kind [k] in a trace. *)
Definition fetches (k : Kind) (trace : list Kind) : nat :=
  length (List.filter (λ k', bool_decide (k' = k)) trace).

End SyncCoordinator.

(** ** The specification's wording, for comparison with the code *)

Module Spec.
Import Js RoutinePage.

(** Section 3: "denormalized field on the Slot, then resolved reference
    field, then a literal sentinel", each step taken when the one before
    it is absent. *)
Definition fallback_chain (denormalized resolved : option string)
    (sentinel : string) : string :=
  match denormalized with
  | Some s => s
  | None =>
      match resolved with
      | Some r => r
      | None => sentinel
      end
  end.

(** The chain as the page runs it: a step is taken when the one before it
    is absent or the empty string. *)
Definition truthy_chain (first second : option string) (sentinel : string) : string :=
  if truthy first then default "" first
  else match second with
       | Some r => r
       | None => sentinel
       end.

(** The record a slot's reference resolves to: the entry stored last
    under the identifier, for an identifier that is a non-empty string. *)
Definition resolve {V} (key : V → string) (records : list V) (ref : option string)
  : option V :=
  match ref with
  | Some i =>
      if String.eqb i "" then None
      else last (List.filter (λ r, String.eqb (key r) i) records)
  | None => None
  end.

(** The enriched slot as a value: what the callback of the enrichment
    pass returns when it returns. *)
Definition enrichment (courses : list Course) (teachers : list Teacher)
    (slot : Slot) : EnrichedSlot :=
  let course := resolve course_id courses (slot_courseId slot) in
  let teacher := resolve teacher_id teachers (slot_teacherId slot) in
  {| es_slot := slot;
     es_course := course;
     es_teacher := teacher;
     es_courseName :=
       truthy_chain (slot_courseName slot) (course_name <$> course) "Unknown Course";
     es_courseCode := truthy_chain (course_code <$> course) None "N/A";
     es_teacherName :=
       truthy_chain (slot_teacherName slot) (teacher_name <$> teacher) "Unknown Teacher" |}.

(** The three display strings as section 3 words them.  A slot stores a
    course name and a teacher name but no course code, so the chain of
    the code starts at the resolved course. *)
Definition display_as_worded (slot : Slot) (e : EnrichedSlot) : Prop :=
  es_courseName e =
    fallback_chain (slot_courseName slot) (course_name <$> es_course e) "Unknown Course"
  ∧ es_courseCode e = fallback_chain None (course_code <$> es_course e) "N/A"
  ∧ es_teacherName e =
    fallback_chain (slot_teacherName slot) (teacher_name <$> es_teacher e) "Unknown Teacher".

(** The three display strings as the page computes them. *)
Definition display_as_run (slot : Slot) (e : EnrichedSlot) : Prop :=
  es_courseName e =
    truthy_chain (slot_courseName slot) (course_name <$> es_course e) "Unknown Course"
  ∧ es_courseCode e = truthy_chain (course_code <$> es_course e) None "N/A"
  ∧ es_teacherName e =
    truthy_chain (slot_teacherName slot) (teacher_name <$> es_teacher e) "Unknown Teacher".

(** No record of the set carries the identifier the slot refers to. *)
Definition unresolved {V} (key : V → string) (records : list V) (ref : option string)
  : Prop :=
  ∀ r, In r records → Some (key r) ≠ ref.

(** *** Case-insensitive occurrence, said without [toLowerCase] *)

(** The capital letters A to Z. *)
Definition capital (c : ascii) : bool :=
  ((65 <=? N_of_ascii c) && (N_of_ascii c <=? 90))%N.

(** The same character, or the capital and the small form of one letter of
    the alphabet (the small letter stands 32 places after the capital). *)
Definition same_letter (a b : ascii) : Prop :=
  a = b
  ∨ (capital a = true ∧ N_of_ascii b = (N_of_ascii a + 32)%N)
  ∨ (capital b = true ∧ N_of_ascii a = (N_of_ascii b + 32)%N).

(** Two texts of one length, letter by letter the same up to case. *)
Fixpoint same_ignoring_case (s t : string) : Prop :=
  match s, t with
  | EmptyString, EmptyString => True
  | String a s', String b t' => same_letter a b ∧ same_ignoring_case s' t'
  | _, _ => False
  end.

(** [q] occurs in [s] up to the case of the letters: some contiguous part
    of [s] is [q] up to case.  One piece, at one place: no splitting into
    words, no letters skipped. *)
Definition occurs_ignoring_case (q s : string) : Prop :=
  ∃ before part after,
    s = before +:+ part +:+ after ∧ same_ignoring_case part q.

(** *** The day of the week of a date, said without [format] *)

Inductive Weekday : Type :=
| Sunday | Monday | Tuesday | Wednesday | Thursday | Friday | Saturday.

Definition tomorrow (w : Weekday) : Weekday :=
  match w with
  | Sunday => Monday | Monday => Tuesday | Tuesday => Wednesday
  | Wednesday => Thursday | Thursday => Friday | Friday => Saturday
  | Saturday => Sunday
  end.

Definition yesterday (w : Weekday) : Weekday :=
  match w with
  | Sunday => Saturday | Monday => Sunday | Tuesday => Monday
  | Wednesday => Tuesday | Thursday => Wednesday | Friday => Thursday
  | Saturday => Friday
  end.

(** 1 January 1970 was a Thursday; every day after it is the morrow of the
    day before, every day before it the eve of the day after. *)
Definition weekday (d : Date) : Weekday :=
  if 0 <=? epochDay d
  then Nat.iter (Z.to_nat (epochDay d)) tomorrow Thursday
  else Nat.iter (Z.to_nat (- epochDay d)) yesterday Thursday.

Definition weekday_name (w : Weekday) : string :=
  match w with
  | Sunday => "Sunday" | Monday => "Monday" | Tuesday => "Tuesday"
  | Wednesday => "Wednesday" | Thursday => "Thursday" | Friday => "Friday"
  | Saturday => "Saturday"
  end.

(** Section 4.4: the day of the slot is the day of the week of the selected
    date, and the query is empty or occurs, case-insensitively, in one of
    the four display fields. *)
Definition kept (selectedDate : Date) (query : string) (slot : EnrichedSlot) : Prop :=
  es_dayOfWeek slot = weekday_name (weekday selectedDate) ∧
  (query = ""
   ∨ occurs_ignoring_case query (es_courseName slot)
   ∨ occurs_ignoring_case query (es_courseCode slot)
   ∨ (∃ room, es_roomNumber slot = Some room ∧ occurs_ignoring_case query room)
   ∨ occurs_ignoring_case query (es_teacherName slot)).

(** *** The search as the page runs it *)

(** The lower-cased query is a piece of the lower-cased field. *)
Definition occurs_lowered (q s : string) : Prop :=
  ∃ before after, toLowerCase s = before +:+ toLowerCase q +:+ after.

Definition kept_lowered (selectedDate : Date) (query : string) (slot : EnrichedSlot)
  : Prop :=
  es_dayOfWeek slot = weekday_name (weekday selectedDate) ∧
  (query = ""
   ∨ occurs_lowered query (es_courseName slot)
   ∨ occurs_lowered query (es_courseCode slot)
   ∨ (∃ room, es_roomNumber slot = Some room ∧ occurs_lowered query room)
   ∨ occurs_lowered query (es_teacherName slot)).

(** *** Text of the ASCII range *)

Fixpoint ascii_only (s : string) : bool :=
  match s with
  | EmptyString => true
  | String c s' => (N_of_ascii c <? 128)%N && ascii_only s'
  end.

(** The four fields the search reads are ASCII. *)
Definition ascii_fields (slot : EnrichedSlot) : bool :=
  ascii_only (es_courseName slot)
  && ascii_only (es_courseCode slot)
  && match es_roomNumber slot with
     | Some room => ascii_only room
     | None => true
     end
  && ascii_only (es_teacherName slot).

(** On ASCII text [toLowerCase] puts the capitals A to Z to lower case and
    leaves the rest. *)
Definition ascii_lower_char (c : ascii) : ascii :=
  if capital c then ascii_of_N (N_of_ascii c + 32) else c.

Fixpoint ascii_lower (s : string) : string :=
  match s with
  | EmptyString => EmptyString
  | String c s' => String (ascii_lower_char c) (ascii_lower s')
  end.

(** Wall-clock times, "HH:MM" or "HH:MM:SS", as seconds after midnight. *)
Definition digit (c : ascii) : option N :=
  let n := N_of_ascii c in
  if ((48 <=? n) && (n <=? 57))%N then Some (n - 48)%N else None.

Definition two_digits (x y : ascii) (bound : N) : option N :=
  a ← digit x; b ← digit y;
  if (10 * a + b <? bound)%N then Some (10 * a + b)%N else None.

Definition seconds (t : string) : option N :=
  match t with
  | String h1 (String h2 (String c1 (String m1 (String m2 rest)))) =>
      if Ascii.eqb c1 ":" then
        h ← two_digits h1 h2 24; m ← two_digits m1 m2 60;
        match rest with
        | EmptyString => Some (3600 * h + 60 * m)%N
        | String c2 (String s1 (String s2 EmptyString)) =>
            if Ascii.eqb c2 ":" then
              s ← two_digits s1 s2 60; Some (3600 * h + 60 * m + s)%N
            else None
        | _ => None
        end
      else None
  | _ => None
  end.

(** The slots that start at [n] seconds after midnight, written with
    [len] characters. *)
Definition starts_at (n : N) (len : nat) (e : EnrichedSlot) : bool :=
  bool_decide (seconds (es_startTime e) = Some n)
  && (String.length (es_startTime e) =? len)%nat.

(** Ascending by start time, on the clock. *)
Definition not_later (a b : EnrichedSlot) : Prop :=
  ∀ m n, seconds (es_startTime a) = Some m → seconds (es_startTime b) = Some n →
         (m <= n)%N.

End Spec.

(** ** Sample data *)

Module Sample.
Import Js RoutinePage.

Definition slot (i day start : string) (courseId courseName : option string) : Slot :=
  {| slot_id := i; slot_dayOfWeek := day;
     slot_startTime := start; slot_endTime := "23:59";
     slot_courseId := courseId; slot_teacherId := None;
     slot_courseName := courseName; slot_teacherName := None;
     slot_roomNumber := None; slot_section := None |}.

Definition routine (i : string) (active : bool) (slots : list Slot) : Routine :=
  {| routine_id := i; routine_name := "Routine " +:+ i;
     routine_semester := "Spring"; routine_isActive := active;
     routine_slots := Some slots |}.

Definition data_structures : Course :=
  {| course_id := "c1"; course_name := "Data Structures"; course_code := "CS201" |}.

(** A course whose code was left empty. *)
Definition uncoded : Course :=
  {| course_id := "c2"; course_name := "Seminar"; course_code := "" |}.

(** 1970-01-05, a Monday. *)
Definition monday : Date := {| epochDay := 4 |}.

(** A slot whose stored course name is the empty string and whose course
    is not in the set. *)
Definition blank_named : Slot := slot "s1" "Monday" "09:00" (Some "c9") (Some "").

(** A slot of the course without a code. *)
Definition of_uncoded : Slot := slot "s2" "Monday" "10:00" (Some "c2") None.

(** The slot of the specification's example. *)
Definition s1 : Slot := slot "s1" "Monday" "09:00" (Some "c1") None.

(** A week's slots as stored: two Monday classes at nine, one at eight
    and one on Wednesday. *)
Definition week : list Slot :=
  [slot "a" "Monday" "09:00" None (Some "Algebra");
   slot "b" "Wednesday" "08:00" None (Some "Biology");
   slot "c" "Monday" "09:00" None (Some "Chemistry");
   slot "d" "Monday" "08:00" None (Some "Drawing")].

(** A slot with a Greek course name, capital alpha and capital sigma. *)
Definition greek : Slot := slot "g" "Monday" "09:00" None (Some "ΑΣ").

(** Two Monday classes at nine, the time written in two ways. *)
Definition nine_long : Slot := slot "a" "Monday" "09:00:00" None (Some "Algebra").
Definition nine_short : Slot := slot "b" "Monday" "09:00" None (Some "Biology").

Definition enriched_of (s : Slot) (c : option Course) (name code : string) : EnrichedSlot :=
  {| es_slot := s; es_course := c; es_teacher := None;
     es_courseName := name; es_courseCode := code;
     es_teacherName := "Unknown Teacher" |}.

End Sample.

(** * Properties *)

Import Js RoutinePage.

(** ** Completions *)

Lemma bind_Normal {A B} (m : Completion A) (k : A → Completion B) (a : A) :
  m = Normal a → (m ≫= k) = k a.
Proof. intros ->. reflexivity. Qed.

Lemma array_map_Normal {A B} (f : A → Completion B) (g : A → B) (l : list A) :
  (∀ x, f x = Normal (g x)) → array_map f l = Normal (map g l).
Proof.
  intros Hf. induction l as [|x l IH]; simpl.
  - reflexivity.
  - rewrite Hf. simpl. rewrite IH. reflexivity.
Qed.

(** ** Strings: prefixes, occurrences, lower case *)

Lemma startsWith_spec (s t : string) :
  startsWith s t = true ↔ ∃ after, s = t +:+ after.
Proof.
  revert s. induction t as [|b t IH]; intros s; simpl.
  - split; [intros _; exists s; reflexivity | intros _; destruct s; reflexivity].
  - destruct s as [|a s]; simpl.
    + split; [discriminate | intros [after H]; discriminate].
    + rewrite andb_true_iff, IH. split.
      * intros [Hab [after ->]]. apply Ascii.eqb_eq in Hab. subst a.
        exists after. reflexivity.
      * intros [after H]. injection H as -> ->. split.
        -- apply Ascii.eqb_refl.
        -- exists after. reflexivity.
Qed.

Lemma includes_spec (s t : string) :
  includes s t = true ↔ ∃ before after, s = before +:+ t +:+ after.
Proof.
  induction s as [|a s IH]; cbn [includes].
  - rewrite orb_false_r, startsWith_spec. split.
    + intros [after H]. exists "", after. exact H.
    + intros [before [after H]]. destruct before; [|discriminate].
      exists after. exact H.
  - rewrite orb_true_iff, startsWith_spec, IH. split.
    + intros [[after H] | [before [after H]]].
      * exists "", after. exact H.
      * exists (String a before), after. simpl. rewrite H. reflexivity.
    + intros [before [after H]]. destruct before as [|c before]; simpl in H.
      * left. exists after. exact H.
      * right. injection H as _ ->. exists before, after. reflexivity.
Qed.

(** *** Lower case on ASCII text *)

Lemma ascii_lower_app (s t : string) :
  Spec.ascii_lower (s +:+ t) = Spec.ascii_lower s +:+ Spec.ascii_lower t.
Proof.
  induction s as [|a s IH]; [reflexivity|].
  change (String (Spec.ascii_lower_char a) (Spec.ascii_lower (s +:+ t))
          = String (Spec.ascii_lower_char a) (Spec.ascii_lower s +:+ Spec.ascii_lower t)).
  rewrite IH. reflexivity.
Qed.

Lemma append_cons_inv (c : ascii) (u v s : string) (x : ascii) :
  String x s = String c u +:+ v → x = c ∧ s = u +:+ v.
Proof. intros H. change (String x s = String c (u +:+ v)) in H. injection H. auto. Qed.

Lemma ascii_lower_split (s u v : string) :
  Spec.ascii_lower s = u +:+ v →
  ∃ s1 s2, s = s1 +:+ s2 ∧ Spec.ascii_lower s1 = u ∧ Spec.ascii_lower s2 = v.
Proof.
  revert s. induction u as [|c u IH]; intros s H.
  - exists "", s. auto.
  - destruct s as [|a s]; [discriminate H|].
    apply append_cons_inv in H. destruct H as [Hc H].
    destruct (IH s H) as [s1 [s2 [-> [H1 H2]]]].
    exists (String a s1), s2. split; [reflexivity|]. split; [|exact H2].
    simpl. rewrite Hc, H1. reflexivity.
Qed.

Lemma ascii_lower_char_code (c : ascii) :
  N_of_ascii (Spec.ascii_lower_char c)
  = (if Spec.capital c then N_of_ascii c + 32 else N_of_ascii c)%N.
Proof.
  unfold Spec.ascii_lower_char. destruct (Spec.capital c) eqn:E; [|reflexivity].
  apply N_ascii_embedding. unfold Spec.capital in E.
  apply andb_true_iff in E. destruct E as [_ E]. apply N.leb_le in E. lia.
Qed.

Lemma capital_range (c : ascii) :
  Spec.capital c = true ↔ (65 <= N_of_ascii c <= 90)%N.
Proof.
  unfold Spec.capital. rewrite andb_true_iff, !N.leb_le. reflexivity.
Qed.

Lemma ascii_code_inj (a b : ascii) : N_of_ascii a = N_of_ascii b → a = b.
Proof.
  intros H. rewrite <- (ascii_N_embedding a), <- (ascii_N_embedding b), H.
  reflexivity.
Qed.

(** Two characters have one lower case exactly when they are one letter. *)
Lemma ascii_lower_char_same (a b : ascii) :
  Spec.ascii_lower_char a = Spec.ascii_lower_char b ↔ Spec.same_letter a b.
Proof.
  unfold Spec.same_letter. split.
  - intros H. apply (f_equal N_of_ascii) in H. rewrite !ascii_lower_char_code in H.
    destruct (Spec.capital a) eqn:Ea, (Spec.capital b) eqn:Eb.
    + left. apply ascii_code_inj. lia.
    + right. left. split; [reflexivity | lia].
    + right. right. split; [reflexivity | lia].
    + left. apply ascii_code_inj. exact H.
  - intros [->|[[Ha Hb]|[Hb Ha]]]; [reflexivity| |]; apply ascii_code_inj;
      rewrite !ascii_lower_char_code.
    + rewrite Ha. apply capital_range in Ha.
      destruct (Spec.capital b) eqn:Eb; [apply capital_range in Eb; lia | lia].
    + rewrite Hb. apply capital_range in Hb.
      destruct (Spec.capital a) eqn:Ea; [apply capital_range in Ea; lia | lia].
Qed.

Lemma ascii_lower_same (s t : string) :
  Spec.ascii_lower s = Spec.ascii_lower t ↔ Spec.same_ignoring_case s t.
Proof.
  revert t. induction s as [|a s IH]; intros [|b t]; simpl;
    try (split; [discriminate | intros []]).
  - split; auto.
  - rewrite <- IH, <- ascii_lower_char_same. split.
    + intros H. injection H. auto.
    + intros [-> ->]. reflexivity.
Qed.

Lemma includes_ascii_lower (s q : string) :
  includes (Spec.ascii_lower s) (Spec.ascii_lower q) = true
  ↔ Spec.occurs_ignoring_case q s.
Proof.
  rewrite includes_spec. unfold Spec.occurs_ignoring_case. split.
  - intros [u [v H]].
    destruct (ascii_lower_split _ _ _ H) as [before [rest [-> [_ Hrest]]]].
    destruct (ascii_lower_split _ _ _ Hrest) as [part [after [-> [Hpart _]]]].
    exists before, part, after. split; [reflexivity|]. apply ascii_lower_same, Hpart.
  - intros [before [part [after [-> Hpart]]]]. apply ascii_lower_same in Hpart.
    exists (Spec.ascii_lower before), (Spec.ascii_lower after).
    rewrite !ascii_lower_app, Hpart. reflexivity.
Qed.

(** *** [toLowerCase] *)

Lemma below_128 (P : N → bool) :
  forallb P (map N.of_nat (seq 0 128)) = true → ∀ n, (n < 128)%N → P n = true.
Proof.
  intros H n Hn. rewrite forallb_forall in H. apply H.
  rewrite <- (N2Nat.id n). apply in_map, in_seq. lia.
Qed.

Lemma simple_lowercase_ascii (n : N) :
  (n < 128)%N →
  Unicode.simple_lowercase n = (if (65 <=? n) && (n <=? 90) then n + 32 else n)%N.
Proof.
  intros Hn. apply N.eqb_eq.
  revert n Hn. apply below_128. vm_compute. reflexivity.
Qed.

Lemma toLowercase_ascii (before : list N) (s : string) :
  Spec.ascii_only s = true →
  Unicode.utf8_encode (Unicode.toLowercase before (Unicode.utf8_decode s))
  = Spec.ascii_lower s.
Proof.
  revert before. induction s as [|c s IH]; intros before Hs; [reflexivity|].
  simpl in Hs. apply andb_true_iff in Hs. destruct Hs as [Hc Hs].
  apply N.ltb_lt in Hc.
  assert (Hd : Unicode.utf8_decode (String c s) = N_of_ascii c :: Unicode.utf8_decode s).
  { cbn [Unicode.utf8_decode]. cbv zeta.
    destruct (N.ltb_spec (N_of_ascii c) 128) as [_|H]; [|lia].
    destruct (N.ltb_spec (N_of_ascii c) 192) as [_|H]; [reflexivity | lia]. }
  rewrite Hd. cbn [Unicode.toLowercase Unicode.utf8_encode].
  unfold Unicode.lowercase_mapping.
  destruct (N.eqb_spec (N_of_ascii c) 931) as [E|_]; [lia|].
  destruct (N.eqb_spec (N_of_ascii c) 304) as [E|_]; [lia|].
  cbn [app Unicode.utf8_encode]. rewrite (IH _ Hs), (simple_lowercase_ascii _ Hc).
  change (Spec.ascii_lower (String c s))
    with (String (Spec.ascii_lower_char c) (Spec.ascii_lower s)).
  unfold Spec.ascii_lower_char, Spec.capital, Unicode.utf8_encode_one, Unicode.byte.
  destruct ((65 <=? N_of_ascii c)%N && (N_of_ascii c <=? 90)%N) eqn:E.
  - apply andb_true_iff in E. destruct E as [_ E]. apply N.leb_le in E.
    destruct (N.ltb_spec (N_of_ascii c + 32) 128) as [_|H]; [|lia].
    rewrite N.mod_small by lia. reflexivity.
  - destruct (N.ltb_spec (N_of_ascii c) 128) as [_|H]; [|lia].
    rewrite N.mod_small by lia. rewrite ascii_N_embedding. reflexivity.
Qed.

(** On ASCII text [toLowerCase] is the lower case of the ASCII letters. *)
Lemma toLowerCase_ascii (s : string) :
  Spec.ascii_only s = true → toLowerCase s = Spec.ascii_lower s.
Proof. apply toLowercase_ascii. Qed.



Lemma includes_self (s : string) : includes s s = true.
Proof.
  apply includes_spec. exists "", "".
  induction s as [|x s IH]; [reflexivity|].
  change (String x s = String x ("" +:+ s +:+ "")). f_equal. exact IH.
Qed.

Lemma field_includes_Some (s q : string) :
  field_includes (Some s) q = includes (toLowerCase s) (toLowerCase q).
Proof. reflexivity. Qed.

Lemma field_includes_ascii (field : option string) (q : string) :
  Spec.ascii_only q = true →
  match field with Some s => Spec.ascii_only s = true | None => True end →
  field_includes field q = true
  ↔ ∃ s, field = Some s ∧ Spec.occurs_ignoring_case q s.
Proof.
  intros Hq Hf. destruct field as [s|].
  - rewrite field_includes_Some, (toLowerCase_ascii _ Hq), (toLowerCase_ascii _ Hf).
    rewrite includes_ascii_lower. split.
    + intros H. exists s. auto.
    + intros [s' [[= <-] H]]. exact H.
  - split; [discriminate | intros [s [[=] _]]].
Qed.

(** ** The comparison of strings *)

Lemma N_of_ascii_inj (x y : ascii) : N_of_ascii x = N_of_ascii y → x = y.
Proof.
  intros H. rewrite <- (ascii_N_embedding x), <- (ascii_N_embedding y), H.
  reflexivity.
Qed.

Lemma localeCompare_refl (a : string) : localeCompare a a = 0.
Proof.
  induction a as [|x a IH]; simpl; [reflexivity|].
  rewrite N.compare_refl. exact IH.
Qed.

Lemma localeCompare_flip (a b : string) : localeCompare b a = - localeCompare a b.
Proof.
  revert b. induction a as [|x a IH]; intros [|y b]; simpl; try reflexivity.
  rewrite (N.compare_antisym (N_of_ascii x) (N_of_ascii y)).
  destruct (N_of_ascii x ?= N_of_ascii y)%N; simpl; auto.
Qed.

Lemma localeCompare_eq (a b : string) : localeCompare a b = 0 → a = b.
Proof.
  revert b. induction a as [|x a IH]; intros [|y b]; simpl; try discriminate.
  - reflexivity.
  - destruct (N.compare_spec (N_of_ascii x) (N_of_ascii y)) as [E|_|_];
      try discriminate.
    intros H. rewrite (N_of_ascii_inj _ _ E), (IH b H). reflexivity.
Qed.

Lemma localeCompare_trans (a b c : string) :
  localeCompare a b <= 0 → localeCompare b c <= 0 → localeCompare a c <= 0.
Proof.
  revert b c. induction a as [|x a IH]; intros [|y b] [|z c]; simpl; try lia.
  destruct (N.compare_spec (N_of_ascii x) (N_of_ascii y)) as [Exy|Lxy|Gxy];
    destruct (N.compare_spec (N_of_ascii y) (N_of_ascii z)) as [Eyz|Lyz|Gyz];
    destruct (N.compare_spec (N_of_ascii x) (N_of_ascii z)) as [Exz|Lxz|Gxz];
    try lia.
  apply IH.
Qed.

(** ** The stable sort *)

Section Sort.
Context {A : Type} (cmp : A → A → Z).

Let le (a b : A) : Prop := cmp a b <= 0.

Lemma sort_insert_Permutation (x : A) (l : list A) :
  Permutation (sort_insert cmp x l) (x :: l).
Proof.
  induction l as [|y l IH]; simpl.
  - reflexivity.
  - destruct (cmp x y <=? 0); [reflexivity|].
    rewrite IH. apply perm_swap.
Qed.

Lemma sort_Permutation (l : list A) : Permutation (sort cmp l) l.
Proof.
  induction l as [|x l IH]; simpl.
  - reflexivity.
  - rewrite sort_insert_Permutation, IH. reflexivity.
Qed.

(** An element passes only elements it does not precede or tie with, so
    a class of elements that tie with each other keeps its order. *)
Lemma sort_insert_filter (p : A → bool) (x : A) (l : list A) :
  (∀ y, p x = true → p y = true → cmp x y <= 0) →
  List.filter p (sort_insert cmp x l) = List.filter p (x :: l).
Proof.
  intros Htie. induction l as [|y l IH]; simpl.
  - reflexivity.
  - destruct (Z.leb_spec (cmp x y) 0) as [Hle|Hgt]; [reflexivity|].
    simpl in *. rewrite IH.
    destruct (p x) eqn:Hx, (p y) eqn:Hy; try reflexivity.
    specialize (Htie y eq_refl Hy). lia.
Qed.

Lemma sort_filter (p : A → bool) (l : list A) :
  (∀ x y, p x = true → p y = true → cmp x y <= 0) →
  List.filter p (sort cmp l) = List.filter p l.
Proof.
  intros Htie. induction l as [|x l IH]; simpl.
  - reflexivity.
  - rewrite sort_insert_filter by (intros y; apply Htie).
    simpl. rewrite IH. reflexivity.
Qed.

Hypothesis cmp_total : ∀ a b, 0 < cmp a b → cmp b a <= 0.
Hypothesis cmp_trans : ∀ a b c, cmp a b <= 0 → cmp b c <= 0 → cmp a c <= 0.

Lemma sort_insert_StronglySorted (x : A) (l : list A) :
  StronglySorted le l → StronglySorted le (sort_insert cmp x l).
Proof.
  induction 1 as [|y l Hl IH Hy]; simpl.
  - constructor; constructor.
  - destruct (Z.leb_spec (cmp x y) 0) as [Hle|Hgt].
    + constructor; [constructor; assumption|].
      constructor; [exact Hle|].
      eapply Forall_impl; [exact Hy|].
      intros z Hz. exact (cmp_trans _ _ _ Hle Hz).
    + constructor; [exact IH|].
      rewrite (sort_insert_Permutation x l).
      constructor; [apply cmp_total; exact Hgt | exact Hy].
Qed.

Lemma sort_StronglySorted (l : list A) : StronglySorted le (sort cmp l).
Proof.
  induction l as [|x l IH]; simpl.
  - constructor.
  - apply sort_insert_StronglySorted, IH.
Qed.

End Sort.

(** ** The lookup maps *)

Import RoutinePage.

Lemma last_filter_cons {V} (p : V → bool) (r : V) (rs : list V) :
  last (List.filter p (r :: rs)) =
  match last (List.filter p rs) with
  | Some r' => Some r'
  | None => if p r then Some r else None
  end.
Proof.
  simpl. destruct (p r); [|destruct (last _); reflexivity].
  destruct (List.filter p rs) as [|r' l] eqn:E; [reflexivity|].
  rewrite last_cons. destruct (last (r' :: l)) eqn:El; [reflexivity|].
  apply last_None in El. discriminate.
Qed.

(** Filling a map record by record leaves, under each key, the record
    stored last under it. *)
Lemma foldl_set_lookup {V} (key : V → string) (records : list V)
    (m : gmap string V) (i : string) :
  foldl (λ m r, <[key r := r]> m) m records !! i =
  match last (List.filter (λ r, String.eqb (key r) i) records) with
  | Some r => Some r
  | None => m !! i
  end.
Proof.
  revert m. induction records as [|r rs IH]; intros m.
  - reflexivity.
  - cbn [foldl]. rewrite IH, last_filter_cons.
    destruct (last (List.filter _ rs)); [reflexivity|].
    destruct (String.eqb_spec (key r) i) as [<-|Hne].
    + apply lookup_insert_eq.
    + apply lookup_insert_ne. exact Hne.
Qed.

Lemma map_get_resolve {V} (key : V → string) (records : list V) (ref : option string) :
  (if truthy ref
   then map_get (foldl (λ m r, <[key r := r]> m) ∅ records) ref
   else None)
  = Spec.resolve key records ref.
Proof.
  destruct ref as [i|]; simpl; [|reflexivity].
  destruct (String.eqb i ""); simpl; [reflexivity|].
  rewrite foldl_set_lookup, lookup_empty.
  destruct (last _); reflexivity.
Qed.

Lemma resolve_Some {V} (key : V → string) (records : list V) (ref : option string) (r : V) :
  Spec.resolve key records ref = Some r → In r records ∧ ref = Some (key r).
Proof.
  destruct ref as [i|]; simpl; [|discriminate].
  destruct (String.eqb i ""); [discriminate|].
  intros H. apply last_Some_elem_of, list_elem_of_In, filter_In in H.
  destruct H as [Hin Hkey]. apply String.eqb_eq in Hkey. subst i. auto.
Qed.

Lemma resolve_unresolved {V} (key : V → string) (records : list V) (ref : option string) :
  Spec.unresolved key records ref → Spec.resolve key records ref = None.
Proof.
  intros Hun. destruct (Spec.resolve key records ref) as [r|] eqn:E; [|reflexivity].
  apply resolve_Some in E. destruct E as [Hin ->]. destruct (Hun r Hin eq_refl).
Qed.

(** ** The enrichment pass returns, and returns [Spec.enrichment] *)

Lemma or_else_Normal (a : option string) (b : option string) (sentinel : string)
    (k : Completion string) :
  k = Normal (match b with Some r => r | None => sentinel end) →
  or_else a k = Normal (Spec.truthy_chain a b sentinel).
Proof.
  intros ->. unfold or_else, Spec.truthy_chain.
  destruct a as [x|]; simpl; [|reflexivity].
  destruct (String.eqb x ""); reflexivity.
Qed.

Lemma enrich_slot_Normal (courses : list Course) (teachers : list Teacher) (slot : Slot) :
  enrich_slot (courseMap courses) (teacherMap teachers) slot
  = Normal (Spec.enrichment courses teachers slot).
Proof.
  unfold enrich_slot, courseMap, teacherMap, Spec.enrichment.
  rewrite !map_get_resolve.
  set (course := Spec.resolve course_id courses (slot_courseId slot)).
  set (teacher := Spec.resolve teacher_id teachers (slot_teacherId slot)).
  erewrite bind_Normal;
    [|apply (or_else_Normal _ (course_name <$> course));
      destruct course; reflexivity].
  erewrite bind_Normal;
    [|apply (or_else_Normal _ None); reflexivity].
  erewrite bind_Normal;
    [|apply (or_else_Normal _ (teacher_name <$> teacher));
      destruct teacher; reflexivity].
  reflexivity.
Qed.

Lemma enriched_Normal (current : option Routine) (courses : list Course)
    (teachers : list Teacher) :
  enriched current courses teachers
  = Normal (map (Spec.enrichment courses teachers)
              (default [] (current ≫= routine_slots))).
Proof.
  unfold enriched.
  destruct current as [r|]; simpl; [|reflexivity].
  destruct (routine_slots r) as [slots|]; simpl; [|reflexivity].
  apply array_map_Normal, enrich_slot_Normal.
Qed.

Lemma Forall2_map_intro {A B} (P : A → B → Prop) (f : A → B) (l : list A) :
  (∀ x, P x (f x)) → Forall2 P l (map f l).
Proof. intros H. induction l; simpl; constructor; auto. Qed.

(** ** The display strings *)

(** C1, as worded, fails: a stored course name that is the empty string is
    present on the slot and is passed over for the sentinel, and the empty
    code of a resolved course is passed over for 'N/A'. *)
Lemma display_as_worded_fails :
  enriched (Some (Sample.routine "r1" true [Sample.blank_named; Sample.of_uncoded]))
    [Sample.uncoded] []
  = Normal [Sample.enriched_of Sample.blank_named None "Unknown Course" "N/A";
            Sample.enriched_of Sample.of_uncoded (Some Sample.uncoded) "Seminar" "N/A"]
  ∧ ¬ Spec.display_as_worded Sample.blank_named
        (Sample.enriched_of Sample.blank_named None "Unknown Course" "N/A")
  ∧ ¬ Spec.display_as_worded Sample.of_uncoded
        (Sample.enriched_of Sample.of_uncoded (Some Sample.uncoded) "Seminar" "N/A").
Proof.
  split; [reflexivity|].
  split; intros [Hname [Hcode _]]; [discriminate Hname | discriminate Hcode].
Qed.

(** C1, amended: for every slot of the enrichment pass, the course and the
    teacher are the records resolved by identifier; courseName and
    teacherName are the slot's stored field when it is a non-empty string,
    otherwise the name of the resolved record, otherwise 'Unknown Course' /
    'Unknown Teacher'; courseCode is the code of the resolved course when
    it is a non-empty string, otherwise 'N/A'.  In particular a slot with
    no stored course name and an unresolved course identifier gets
    'Unknown Course' and 'N/A'. *)
Theorem enriched_display_strings (current : option Routine)
    (courses : list Course) (teachers : list Teacher) :
  ∃ es,
    enriched current courses teachers = Normal es ∧
    Forall2 (λ slot e,
        es_course e = Spec.resolve course_id courses (slot_courseId slot)
        ∧ es_teacher e = Spec.resolve teacher_id teachers (slot_teacherId slot)
        ∧ Spec.display_as_run slot e
        ∧ (slot_courseName slot = None →
           Spec.unresolved course_id courses (slot_courseId slot) →
           es_courseName e = "Unknown Course" ∧ es_courseCode e = "N/A"))
      (default [] (current ≫= routine_slots)) es.
Proof.
  eexists. split; [apply enriched_Normal|].
  apply Forall2_map_intro. intros slot.
  split; [reflexivity|]. split; [reflexivity|].
  split; [split; [|split]; reflexivity|].
  simpl. intros -> Hun. rewrite (resolve_unresolved _ _ _ Hun).
  split; reflexivity.
Qed.

(** The example of the specification: slot s1 of course c1. *)
Lemma enriched_display_strings_witness :
  ∃ es,
    enriched (Some (Sample.routine "r1" true [Sample.s1])) [Sample.data_structures] []
      = Normal es ∧
    Forall2 (λ slot e,
        es_course e = Spec.resolve course_id [Sample.data_structures] (slot_courseId slot)
        ∧ es_teacher e = Spec.resolve teacher_id [] (slot_teacherId slot)
        ∧ Spec.display_as_run slot e
        ∧ (slot_courseName slot = None →
           Spec.unresolved course_id [Sample.data_structures] (slot_courseId slot) →
           es_courseName e = "Unknown Course" ∧ es_courseCode e = "N/A"))
      [Sample.s1] es.
Proof.
  exact (enriched_display_strings
           (Some (Sample.routine "r1" true [Sample.s1])) [Sample.data_structures] []).
Defined.

Example enriched_example :
  enriched (Some (Sample.routine "r1" true [Sample.s1])) [Sample.data_structures] []
  = Normal [Sample.enriched_of Sample.s1 (Some Sample.data_structures)
              "Data Structures" "CS201"].
Proof. reflexivity. Qed.

(** C4: enrichment returns one enriched slot per slot of the routine, in
    the order of the routine's slots (none for a routine without a slot
    list). *)
Theorem enriched_one_per_slot (R : Routine) (courses : list Course)
    (teachers : list Teacher) :
  ∃ es,
    enriched (Some R) courses teachers = Normal es ∧
    length es = length (default [] (routine_slots R)) ∧
    map es_slot es = default [] (routine_slots R) ∧
    Forall2 (λ slot e, e = Spec.enrichment courses teachers slot)
      (default [] (routine_slots R)) es.
Proof.
  eexists. split; [apply enriched_Normal|]. simpl.
  split; [apply length_map|].
  split.
  - rewrite map_map. simpl. apply map_id.
  - apply Forall2_map_intro. reflexivity.
Qed.

(** C9: a stored courseName (teacherName) that is the empty string counts
    as absent: the display string is the name of the resolved record when
    one resolves and the sentinel otherwise. *)
Theorem empty_stored_name_is_absent (current : option Routine)
    (courses : list Course) (teachers : list Teacher) :
  ∃ es,
    enriched current courses teachers = Normal es ∧
    Forall2 (λ slot e,
        (slot_courseName slot = Some "" →
         es_courseName e =
           match Spec.resolve course_id courses (slot_courseId slot) with
           | Some course => course_name course
           | None => "Unknown Course"
           end)
        ∧ (slot_teacherName slot = Some "" →
           es_teacherName e =
             match Spec.resolve teacher_id teachers (slot_teacherId slot) with
             | Some teacher => teacher_name teacher
             | None => "Unknown Teacher"
             end))
      (default [] (current ≫= routine_slots)) es.
Proof.
  eexists. split; [apply enriched_Normal|].
  apply Forall2_map_intro. intros slot. simpl.
  split; intros ->; unfold Spec.truthy_chain; simpl.
  - destruct (Spec.resolve course_id _ _); reflexivity.
  - destruct (Spec.resolve teacher_id _ _); reflexivity.
Qed.

(** An empty stored name gives way to the name of the resolved course. *)
Example empty_stored_name_example :
  enriched
    (Some (Sample.routine "r1" true
             [Sample.slot "s1" "Monday" "09:00" (Some "c1") (Some "")]))
    [Sample.data_structures] []
  = Normal [Sample.enriched_of (Sample.slot "s1" "Monday" "09:00" (Some "c1") (Some ""))
              (Some Sample.data_structures) "Data Structures" "CS201"].
Proof. reflexivity. Qed.

(** C6: a reference without a matching record resolves to undefined and
    the display strings fall back (to the slot's stored name when it has
    one, else to the sentinel; to 'N/A' for the code); the enrichment pass
    and the filter after it return normally on every input. *)
Theorem unresolved_reference_never_throws (current : option Routine)
    (courses : list Course) (teachers : list Teacher)
    (searchTerm : string) (selectedDate : Date) :
  ∃ es,
    enriched current courses teachers = Normal es ∧
    pipeline current courses teachers searchTerm selectedDate
      = Normal (filteredSlots es searchTerm selectedDate) ∧
    Forall2 (λ slot e,
        (Spec.unresolved course_id courses (slot_courseId slot) →
         es_course e = None
         ∧ es_courseName e = Spec.truthy_chain (slot_courseName slot) None "Unknown Course"
         ∧ es_courseCode e = "N/A")
        ∧ (Spec.unresolved teacher_id teachers (slot_teacherId slot) →
           es_teacher e = None
           ∧ es_teacherName e
             = Spec.truthy_chain (slot_teacherName slot) None "Unknown Teacher"))
      (default [] (current ≫= routine_slots)) es.
Proof.
  eexists. split; [apply enriched_Normal|]. split.
  - unfold pipeline. rewrite enriched_Normal. reflexivity.
  - apply Forall2_map_intro. intros slot. simpl.
    split; intros Hun; rewrite (resolve_unresolved _ _ _ Hun); auto.
Qed.

Lemma unresolved_reference_never_throws_witness :
  ∃ es,
    enriched (Some (Sample.routine "r1" true [Sample.blank_named])) [Sample.uncoded] []
      = Normal es ∧
    pipeline (Some (Sample.routine "r1" true [Sample.blank_named])) [Sample.uncoded] []
        "" Sample.monday
      = Normal (filteredSlots es "" Sample.monday) ∧
    Forall2 (λ slot e,
        (Spec.unresolved course_id [Sample.uncoded] (slot_courseId slot) →
         es_course e = None
         ∧ es_courseName e = Spec.truthy_chain (slot_courseName slot) None "Unknown Course"
         ∧ es_courseCode e = "N/A")
        ∧ (Spec.unresolved teacher_id [] (slot_teacherId slot) →
           es_teacher e = None
           ∧ es_teacherName e
             = Spec.truthy_chain (slot_teacherName slot) None "Unknown Teacher"))
      [Sample.blank_named] es.
Proof.
  exact (unresolved_reference_never_throws
           (Some (Sample.routine "r1" true [Sample.blank_named])) [Sample.uncoded] []
           "" Sample.monday).
Defined.

(** ** The filter *)

Lemma getDay_range (d : Date) : 0 <= getDay d < 7.
Proof. unfold getDay. apply Z.mod_pos_bound. lia. Qed.

Lemma getDay_addDays (d : Date) (n : Z) :
  getDay (addDays d n) = (getDay d + n) `mod` 7.
Proof.
  unfold getDay, addDays. simpl.
  rewrite Zplus_mod_idemp_l. f_equal. lia.
Qed.

Lemma getDay_cases (d : Date) :
  getDay d = 0 ∨ getDay d = 1 ∨ getDay d = 2 ∨ getDay d = 3
  ∨ getDay d = 4 ∨ getDay d = 5 ∨ getDay d = 6.
Proof. pose proof (getDay_range d). lia. Qed.

Lemma format_EEEE_tomorrow (d : Date) (w : Spec.Weekday) :
  format_EEEE d = Spec.weekday_name w →
  format_EEEE (addDays d 1) = Spec.weekday_name (Spec.tomorrow w).
Proof.
  unfold format_EEEE. rewrite getDay_addDays.
  destruct (getDay_cases d) as [H|[H|[H|[H|[H|[H|H]]]]]]; rewrite H;
    destruct w; intros E; try discriminate E; reflexivity.
Qed.

Lemma format_EEEE_yesterday (d : Date) (w : Spec.Weekday) :
  format_EEEE d = Spec.weekday_name w →
  format_EEEE (addDays d (-1)) = Spec.weekday_name (Spec.yesterday w).
Proof.
  unfold format_EEEE. rewrite getDay_addDays.
  destruct (getDay_cases d) as [H|[H|[H|[H|[H|[H|H]]]]]]; rewrite H;
    destruct w; intros E; try discriminate E; reflexivity.
Qed.

Lemma format_EEEE_after (k : nat) :
  format_EEEE {| epochDay := Z.of_nat k |}
  = Spec.weekday_name (Nat.iter k Spec.tomorrow Spec.Thursday).
Proof.
  induction k as [|k IH]; [reflexivity|].
  replace {| epochDay := Z.of_nat (S k) |} with (addDays {| epochDay := Z.of_nat k |} 1)
    by (unfold addDays; simpl epochDay; f_equal; lia).
  apply format_EEEE_tomorrow, IH.
Qed.

Lemma format_EEEE_before (k : nat) :
  format_EEEE {| epochDay := - Z.of_nat k |}
  = Spec.weekday_name (Nat.iter k Spec.yesterday Spec.Thursday).
Proof.
  induction k as [|k IH]; [reflexivity|].
  replace {| epochDay := - Z.of_nat (S k) |}
    with (addDays {| epochDay := - Z.of_nat k |} (-1))
    by (unfold addDays; simpl epochDay; f_equal; lia).
  apply format_EEEE_yesterday, IH.
Qed.

(** [format(d, 'EEEE')] names the day of the week of [d]. *)
Lemma format_EEEE_weekday (d : Date) :
  format_EEEE d = Spec.weekday_name (Spec.weekday d).
Proof.
  destruct d as [e]. unfold Spec.weekday. simpl epochDay.
  destruct (Z.leb_spec 0 e) as [H|H].
  - rewrite <- format_EEEE_after, Z2Nat.id by lia. reflexivity.
  - rewrite <- format_EEEE_before, Z2Nat.id by lia. f_equal. f_equal. lia.
Qed.

Lemma field_includes_lowered (field : option string) (q : string) :
  field_includes field q = true ↔ ∃ s, field = Some s ∧ Spec.occurs_lowered q s.
Proof.
  unfold Spec.occurs_lowered. destruct field as [s|].
  - rewrite field_includes_Some, includes_spec. split.
    + intros H. exists s. auto.
    + intros [s' [[= <-] H]]. exact H.
  - split; [discriminate | intros [s [[=] _]]].
Qed.

(** The callback of the filter, as a proposition. *)
Lemma keep_lowered (selectedDate : Date) (searchTerm : string) (slot : EnrichedSlot) :
  matchesSearch searchTerm slot && matchesDay selectedDate slot = true
  ↔ Spec.kept_lowered selectedDate searchTerm slot.
Proof.
  unfold matchesSearch, matchesDay, Spec.kept_lowered.
  rewrite andb_true_iff, !orb_true_iff, !field_includes_lowered, !String.eqb_eq.
  rewrite format_EEEE_weekday. split.
  - intros [Hq Hday]. split; [symmetry; exact Hday|].
    destruct Hq as [[[[Hq|[s [[= <-] H]]]|[s [[= <-] H]]]|[s [Hs H]]]|[s [[= <-] H]]].
    + left. exact Hq.
    + right. left. exact H.
    + right. right. left. exact H.
    + right. right. right. left. exists s. auto.
    + right. right. right. right. exact H.
  - intros [Hday Hq]. split; [|symmetry; exact Hday].
    destruct Hq as [Hq|[H|[H|[[room [Hroom H]]|H]]]].
    + left. left. left. left. exact Hq.
    + left. left. left. right. eexists. eauto.
    + left. left. right. eexists. eauto.
    + left. right. exists room. auto.
    + right. eexists. eauto.
Qed.

(** On ASCII text the lower-cased query is a piece of the lower-cased
    field exactly when the query occurs in the field up to case. *)
Lemma occurs_lowered_ascii (q s : string) :
  Spec.ascii_only q = true → Spec.ascii_only s = true →
  Spec.occurs_lowered q s ↔ Spec.occurs_ignoring_case q s.
Proof.
  intros Hq Hs. unfold Spec.occurs_lowered.
  rewrite (toLowerCase_ascii _ Hq), (toLowerCase_ascii _ Hs).
  rewrite <- includes_spec. apply includes_ascii_lower.
Qed.

Lemma kept_lowered_ascii (selectedDate : Date) (query : string) (slot : EnrichedSlot) :
  Spec.ascii_only query = true → Spec.ascii_fields slot = true →
  Spec.kept_lowered selectedDate query slot ↔ Spec.kept selectedDate query slot.
Proof.
  intros Hq Hf. unfold Spec.ascii_fields in Hf.
  apply andb_true_iff in Hf. destruct Hf as [Hf Ht].
  apply andb_true_iff in Hf. destruct Hf as [Hf Hr].
  apply andb_true_iff in Hf. destruct Hf as [Hn Hc].
  unfold Spec.kept_lowered, Spec.kept.
  rewrite (occurs_lowered_ascii _ _ Hq Hn), (occurs_lowered_ascii _ _ Hq Hc),
    (occurs_lowered_ascii _ _ Hq Ht).
  assert (Hroom :
    (∃ room, es_roomNumber slot = Some room ∧ Spec.occurs_lowered query room)
    ↔ (∃ room, es_roomNumber slot = Some room ∧ Spec.occurs_ignoring_case query room)).
  { split; intros [room [Hroom H]]; exists room; (split; [exact Hroom|]);
      rewrite Hroom in Hr; apply (occurs_lowered_ascii _ _ Hq Hr); exact H. }
  rewrite Hroom. reflexivity.
Qed.

Lemma filteredSlots_sublist (enrichedSlots : list EnrichedSlot)
    (searchTerm : string) (selectedDate : Date) :
  sublist (filteredSlots enrichedSlots searchTerm selectedDate) enrichedSlots.
Proof.
  unfold filteredSlots. induction enrichedSlots as [|e es IH]; simpl.
  - constructor.
  - destruct (_ && _); [apply sublist_skip | apply sublist_cons]; exact IH.
Qed.

(** C2, as worded, fails beyond ASCII: the query 'Σ' occurs in the course
    name 'ΑΣ' as it stands, and the slot is dropped, because the sigma at
    the end of the name is lower-cased to the final sigma and the sigma of
    the query is not. *)
Lemma filteredSlots_final_sigma :
  Spec.kept Sample.monday "Σ" (Spec.enrichment [] [] Sample.greek)
  ∧ In (Spec.enrichment [] [] Sample.greek) [Spec.enrichment [] [] Sample.greek]
  ∧ filteredSlots [Spec.enrichment [] [] Sample.greek] "Σ" Sample.monday = [].
Proof.
  split; [|split].
  - split; [reflexivity|]. right. left.
    exists "Α", "Σ", "". split; [reflexivity|].
    simpl. repeat split; left; reflexivity.
  - left. reflexivity.
  - vm_compute. reflexivity.
Qed.

(** C2, amended: the filter keeps, in their order, exactly the slots whose
    day is the day of the week of the selected date and for which the
    query is empty or the lower-cased query is one contiguous piece of the
    lower-cased courseName, courseCode, roomNumber or teacherName; for a
    query and fields of ASCII text that is exactly the occurrence of the
    query in the field up to letter case. *)
Theorem filteredSlots_selects (enrichedSlots : list EnrichedSlot)
    (searchTerm : string) (selectedDate : Date) :
  (∀ slot,
      In slot (filteredSlots enrichedSlots searchTerm selectedDate)
      ↔ In slot enrichedSlots ∧ Spec.kept_lowered selectedDate searchTerm slot)
  ∧ sublist (filteredSlots enrichedSlots searchTerm selectedDate) enrichedSlots
  ∧ (Spec.ascii_only searchTerm = true →
     ∀ slot, Spec.ascii_fields slot = true →
       (In slot (filteredSlots enrichedSlots searchTerm selectedDate)
        ↔ In slot enrichedSlots ∧ Spec.kept selectedDate searchTerm slot)).
Proof.
  assert (Hin : ∀ slot,
      In slot (filteredSlots enrichedSlots searchTerm selectedDate)
      ↔ In slot enrichedSlots ∧ Spec.kept_lowered selectedDate searchTerm slot).
  { intros slot. unfold filteredSlots. rewrite filter_In, keep_lowered. reflexivity. }
  split; [exact Hin|]. split; [apply filteredSlots_sublist|].
  intros Hq slot Hf. rewrite Hin, (kept_lowered_ascii _ _ _ Hq Hf). reflexivity.
Qed.

(** The sample week, searched for 'ALG' on a Monday. *)
Lemma filteredSlots_selects_witness :
  In (Spec.enrichment [] [] (Sample.slot "a" "Monday" "09:00" None (Some "Algebra")))
     (filteredSlots (map (Spec.enrichment [] []) Sample.week) "ALG" Sample.monday)
  ↔ In (Spec.enrichment [] [] (Sample.slot "a" "Monday" "09:00" None (Some "Algebra")))
       (map (Spec.enrichment [] []) Sample.week)
    ∧ Spec.kept Sample.monday "ALG"
        (Spec.enrichment [] [] (Sample.slot "a" "Monday" "09:00" None (Some "Algebra"))).
Proof.
  apply (proj2 (proj2 (filteredSlots_selects
                         (map (Spec.enrichment [] []) Sample.week) "ALG" Sample.monday)));
    reflexivity.
Defined.

(** The match is on the query as one piece: its words in another order, or
    with letters left out, do not match; accented capitals match their
    small letters. *)
Example search_is_plain_substring :
  field_includes (Some "Data Structures") "TA STRUCT" = true
  ∧ field_includes (Some "Data Structures") "structures data" = false
  ∧ field_includes (Some "Data Structures") "dta" = false
  ∧ field_includes (Some "Café de Flore") "CAFÉ" = true
  ∧ field_includes None "data" = false.
Proof. vm_compute. repeat split. Qed.

(** ** The order of presentation *)

Lemma localeCompare_cons (x y : ascii) (s t : string) :
  localeCompare (String x s) (String y t) <= 0
  ↔ (N_of_ascii x < N_of_ascii y)%N
    ∨ (N_of_ascii x = N_of_ascii y ∧ localeCompare s t <= 0).
Proof.
  cbn [localeCompare].
  destruct (N.compare_spec (N_of_ascii x) (N_of_ascii y)); split; intros; lia.
Qed.

Lemma localeCompare_nil_l (t : string) : localeCompare "" t <= 0.
Proof. destruct t; simpl; lia. Qed.

Lemma localeCompare_nil_r (x : ascii) (s : string) :
  ¬ localeCompare (String x s) "" <= 0.
Proof. simpl. lia. Qed.

Lemma two_digits_code (x y : ascii) (bound n : N) :
  Spec.two_digits x y bound = Some n →
  ∃ a b, N_of_ascii x = (48 + a)%N ∧ N_of_ascii y = (48 + b)%N
         ∧ (a <= 9)%N ∧ (b <= 9)%N ∧ n = (10 * a + b)%N ∧ (n < bound)%N.
Proof.
  unfold Spec.two_digits, Spec.digit. cbv zeta.
  destruct (N.leb_spec 48 (N_of_ascii x));
    destruct (N.leb_spec (N_of_ascii x) 57);
    cbn [andb mbind option_bind]; try discriminate.
  destruct (N.leb_spec 48 (N_of_ascii y));
    destruct (N.leb_spec (N_of_ascii y) 57);
    cbn [andb mbind option_bind]; try discriminate.
  destruct (N.ltb_spec (10 * (N_of_ascii x - 48) + (N_of_ascii y - 48)) bound);
    [|discriminate].
  intros Hn. exists (N_of_ascii x - 48)%N, (N_of_ascii y - 48)%N.
  split; [lia|]. split; [lia|]. split; [lia|]. split; [lia|].
  split; [congruence|]. injection Hn as <-. assumption.
Qed.

(** The shape of a string that reads as a time. *)
Lemma seconds_inv (t : string) (n : N) :
  Spec.seconds t = Some n →
  ∃ h1 h2 m1 m2 rest h m,
    t = String h1 (String h2 (String ":" (String m1 (String m2 rest))))
    ∧ Spec.two_digits h1 h2 24 = Some h
    ∧ Spec.two_digits m1 m2 60 = Some m
    ∧ ((rest = "" ∧ n = (3600 * h + 60 * m)%N)
       ∨ ∃ s1 s2 s,
           rest = String ":" (String s1 (String s2 ""))
           ∧ Spec.two_digits s1 s2 60 = Some s
           ∧ n = (3600 * h + 60 * m + s)%N).
Proof.
  destruct t as [|h1 [|h2 [|c1 [|m1 [|m2 rest]]]]]; try discriminate.
  unfold Spec.seconds.
  destruct (Ascii.eqb_spec c1 ":") as [->|_]; [|discriminate].
  destruct (Spec.two_digits h1 h2 24) as [h|] eqn:Eh; [|discriminate].
  destruct (Spec.two_digits m1 m2 60) as [m|] eqn:Em; [|discriminate].
  cbn [mbind option_bind]. intros Hn.
  exists h1, h2, m1, m2, rest, h, m.
  split; [reflexivity|]. split; [exact Eh|]. split; [exact Em|].
  destruct rest as [|c2 [|s1 [|s2 [|? ?]]]]; try discriminate.
  - left. split; [reflexivity | congruence].
  - right. destruct (Ascii.eqb_spec c2 ":") as [->|_]; [|discriminate].
    destruct (Spec.two_digits s1 s2 60) as [s|] eqn:Es; [|discriminate].
    exists s1, s2, s. split; [reflexivity|]. split; [exact Es|].
    cbn [mbind option_bind] in Hn. congruence.
Qed.

(** On times written "HH:MM" or "HH:MM:SS" the order of the strings agrees
    with the order of the times. *)
Lemma localeCompare_seconds (s t : string) (m n : N) :
  Spec.seconds s = Some m → Spec.seconds t = Some n →
  localeCompare s t <= 0 → (m <= n)%N.
Proof.
  intros Hs Ht.
  destruct (seconds_inv _ _ Hs) as (h1 & h2 & m1 & m2 & rest & h & mi & -> & Hh & Hm & Hrest).
  destruct (seconds_inv _ _ Ht)
    as (h1' & h2' & m1' & m2' & rest' & h' & mi' & -> & Hh' & Hm' & Hrest').
  apply two_digits_code in Hh, Hm, Hh', Hm'.
  destruct Hh as (a & b & Ea & Eb & ? & ? & -> & ?).
  destruct Hm as (c & d & Ec & Ed & ? & ? & -> & ?).
  destruct Hh' as (a' & b' & Ea' & Eb' & ? & ? & -> & ?).
  destruct Hm' as (c' & d' & Ec' & Ed' & ? & ? & -> & ?).
  rewrite !localeCompare_cons, Ea, Eb, Ec, Ed, Ea', Eb', Ec', Ed'.
  destruct Hrest as [[-> ->]|(s1 & s2 & se & -> & Hse & ->)];
    destruct Hrest' as [[-> ->]|(s1' & s2' & se' & -> & Hse' & ->)].
  - lia.
  - lia.
  - pose proof (localeCompare_nil_r ":" (String s1 (String s2 ""))).
    apply two_digits_code in Hse. destruct Hse as (e & f & _ & _ & ? & ? & -> & ?).
    lia.
  - apply two_digits_code in Hse, Hse'.
    destruct Hse as (e & f & Ee & Ef & ? & ? & -> & ?).
    destruct Hse' as (e' & f' & Ee' & Ef' & ? & ? & -> & ?).
    rewrite !localeCompare_cons, Ee, Ef, Ee', Ef'. simpl localeCompare. lia.
Qed.

Lemma two_digits_inj (x y x' y' : ascii) (bound bound' n : N) :
  Spec.two_digits x y bound = Some n → Spec.two_digits x' y' bound' = Some n →
  x = x' ∧ y = y'.
Proof.
  intros H H'. apply two_digits_code in H, H'.
  destruct H as (a & b & Ea & Eb & ? & ? & -> & _).
  destruct H' as (a' & b' & Ea' & Eb' & ? & ? & E & _).
  assert (a = a' ∧ b = b') as [-> ->] by lia.
  split; apply ascii_code_inj; congruence.
Qed.

(** One time written in one format is one string. *)
Lemma seconds_same_length (s t : string) (n : N) :
  Spec.seconds s = Some n → Spec.seconds t = Some n →
  String.length s = String.length t → s = t.
Proof.
  intros Hs Ht Hlen.
  destruct (seconds_inv _ _ Hs) as (h1 & h2 & m1 & m2 & rest & h & mi & -> & Hh & Hm & Hrest).
  destruct (seconds_inv _ _ Ht)
    as (h1' & h2' & m1' & m2' & rest' & h' & mi' & -> & Hh' & Hm' & Hrest').
  pose proof (two_digits_code _ _ _ _ Hm) as (_ & _ & _ & _ & _ & _ & _ & Bm).
  pose proof (two_digits_code _ _ _ _ Hm') as (_ & _ & _ & _ & _ & _ & _ & Bm').
  destruct Hrest as [[-> En]|(s1 & s2 & se & -> & Hse & En)];
    destruct Hrest' as [[-> En']|(s1' & s2' & se' & -> & Hse' & En')];
    try discriminate Hlen.
  - assert (h = h' ∧ mi = mi') as [-> ->] by lia.
    destruct (two_digits_inj _ _ _ _ _ _ _ Hh Hh') as [-> ->].
    destruct (two_digits_inj _ _ _ _ _ _ _ Hm Hm') as [-> ->]. reflexivity.
  - pose proof (two_digits_code _ _ _ _ Hse) as (_ & _ & _ & _ & _ & _ & _ & Bs).
    pose proof (two_digits_code _ _ _ _ Hse') as (_ & _ & _ & _ & _ & _ & _ & Bs').
    assert (h = h' ∧ mi = mi' ∧ se = se') as (-> & -> & ->) by lia.
    destruct (two_digits_inj _ _ _ _ _ _ _ Hh Hh') as [-> ->].
    destruct (two_digits_inj _ _ _ _ _ _ _ Hm Hm') as [-> ->].
    destruct (two_digits_inj _ _ _ _ _ _ _ Hse Hse') as [-> ->]. reflexivity.
Qed.

(** C3, as worded, fails for one time written in two ways: two Monday
    classes at nine, stored as '09:00:00' then '09:00', are presented in
    the other order, because the times are compared as strings. *)
Lemma equal_times_two_writings :
  Spec.seconds "09:00:00" = Spec.seconds "09:00"
  ∧ Spec.seconds "09:00" ≠ None
  ∧ map es_id
      (filteredSlots
         (map (Spec.enrichment [] []) [Sample.nine_long; Sample.nine_short])
         "" Sample.monday)
    = ["a"; "b"]
  ∧ map es_id
      (presentedSlots
         (map (Spec.enrichment [] []) [Sample.nine_long; Sample.nine_short])
         "" Sample.monday)
    = ["b"; "a"].
Proof.
  split; [vm_compute; reflexivity|].
  split; [vm_compute; discriminate|].
  split; vm_compute; reflexivity.
Qed.

(** C3, amended: the slots presented for the selected day are the filtered
    slots, ascending by start time, and slots whose start times are the
    same string keep the order the filter gave them, which is the order
    they are stored in; so do slots that start at the same time written
    in the same format. *)
Theorem presentedSlots_sorted_stable (enrichedSlots : list EnrichedSlot)
    (searchTerm : string) (selectedDate : Date) :
  let shown := presentedSlots enrichedSlots searchTerm selectedDate in
  let kept := filteredSlots enrichedSlots searchTerm selectedDate in
  Permutation shown kept
  ∧ StronglySorted
      (λ a b, localeCompare (es_startTime a) (es_startTime b) <= 0) shown
  ∧ StronglySorted Spec.not_later shown
  ∧ (∀ t, List.filter (λ e, String.eqb (es_startTime e) t) shown
          = List.filter (λ e, String.eqb (es_startTime e) t) kept)
  ∧ (∀ n len, List.filter (Spec.starts_at n len) shown
              = List.filter (Spec.starts_at n len) kept)
  ∧ sublist kept enrichedSlots.
Proof.
  intros shown kept.
  assert (Hsorted : StronglySorted
            (λ a b, localeCompare (es_startTime a) (es_startTime b) <= 0) shown).
  { apply (sort_StronglySorted
             (λ a b, localeCompare (es_startTime a) (es_startTime b))).
    - intros a b H. rewrite localeCompare_flip. lia.
    - intros a b c. apply localeCompare_trans. }
  split; [apply sort_Permutation|].
  split; [exact Hsorted|].
  split; [|split; [|split]].
  - clear -Hsorted. induction Hsorted as [|e l Hl IH He]; constructor.
    + exact IH.
    + eapply Forall_impl; [exact He|].
      intros e' Hle m n Hm Hn. exact (localeCompare_seconds _ _ _ _ Hm Hn Hle).
  - intros t. apply sort_filter. intros x y Hx Hy.
    apply String.eqb_eq in Hx, Hy. rewrite Hx, Hy, localeCompare_refl. lia.
  - intros n len. apply sort_filter. intros x y Hx Hy.
    unfold Spec.starts_at in Hx, Hy.
    apply andb_true_iff in Hx, Hy. destruct Hx as [Hx Lx], Hy as [Hy Ly].
    apply bool_decide_eq_true in Hx, Hy. apply Nat.eqb_eq in Lx, Ly.
    rewrite (seconds_same_length _ _ _ Hx Hy) by congruence.
    rewrite localeCompare_refl. lia.
  - apply filteredSlots_sublist.
Qed.

(** The Monday slots of the sample week, earliest first, the two nine
    o'clock classes in stored order. *)
Example monday_of_the_sample_week :
  map es_id
    (presentedSlots (map (Spec.enrichment [] []) Sample.week) "" Sample.monday)
  = ["d"; "a"; "c"].
Proof. vm_compute. reflexivity. Qed.

(** ** The routine on display *)

Lemma find_first {A} (p : A → bool) (before : list A) (x : A) (after : list A) :
  p x = true → Forall (λ y, p y = false) before →
  List.find p (before ++ x :: after) = Some x.
Proof.
  intros Hx Hb. induction Hb as [|y before Hy _ IH]; simpl.
  - rewrite Hx. reflexivity.
  - rewrite Hy. exact IH.
Qed.

Lemma find_none {A} (p : A → bool) (l : list A) :
  Forall (λ y, p y = false) l → List.find p l = None.
Proof.
  induction 1 as [|y l Hy _ IH]; simpl; [reflexivity|].
  rewrite Hy. exact IH.
Qed.

Lemma find_id_none (routines : list Routine) (i : string) :
  (∀ r, In r routines → routine_id r ≠ i) →
  List.find (λ r, String.eqb (routine_id r) i) routines = None.
Proof.
  intros H. apply find_none, Forall_forall. intros r Hr.
  apply String.eqb_neq, H, list_elem_of_In, Hr.
Qed.

(** C5: with no routine selected explicitly, the routine on display is the
    first active routine in stored order; without an active routine it is
    the first routine of the list; it is undefined for the empty list
    only. *)
Theorem currentRoutine_default (routines : list Routine) :
  (∀ before r after,
      routines = before ++ r :: after →
      routine_isActive r = true →
      Forall (λ x, routine_isActive x = false) before →
      currentRoutine routines "" = Some r)
  ∧ (Forall (λ x, routine_isActive x = false) routines →
     currentRoutine routines "" = head routines)
  ∧ (currentRoutine routines "" = None ↔ routines = []).
Proof.
  unfold currentRoutine. simpl. split; [|split].
  - intros before r after -> Hr Hb.
    rewrite (find_first (λ r, routine_isActive r) before r after Hr Hb). reflexivity.
  - intros Hall. rewrite (find_none (λ r, routine_isActive r) routines Hall). reflexivity.
  - destruct routines as [|x l]; simpl.
    + split; reflexivity.
    + destruct (routine_isActive x); [split; discriminate|].
      destruct (List.find _ l); split; discriminate.
Qed.

Lemma currentRoutine_default_witness :
  currentRoutine
    [Sample.routine "r1" false []; Sample.routine "r2" true []; Sample.routine "r3" true []]
    "" = Some (Sample.routine "r2" true []).
Proof.
  apply (proj1 (currentRoutine_default _) [Sample.routine "r1" false []]
           (Sample.routine "r2" true []) [Sample.routine "r3" true []]).
  - reflexivity.
  - reflexivity.
  - repeat constructor.
Defined.

(** C8, as worded, fails while the routines are loading or an error is
    set: with a selected id that no routine carries, the page shows the
    spinner, or the error, and not the empty state. *)
Lemma stale_selection_not_always_empty_state :
  (∀ r, In r [Sample.routine "r1" true []] → routine_id r ≠ "r0")
  ∧ render true None [Sample.routine "r1" true []] "r0" = Spinner
  ∧ render false (Some "Failed to fetch") [Sample.routine "r1" true []] "r0"
    = ErrorLoadingRoutines "Failed to fetch"
  ∧ Spinner ≠ NoRoutineAvailable
  ∧ ErrorLoadingRoutines "Failed to fetch" ≠ NoRoutineAvailable.
Proof.
  split.
  - intros r [<-|[]]. discriminate.
  - repeat split; discriminate.
Qed.

(** C8, amended: when a routine id is selected and no routine of the list
    carries it, there is no fallback to the active or the first routine:
    the current routine is undefined, and once loading is over and no
    error is set the page is the 'No Routine Available' empty state,
    whatever other routines exist. *)
Theorem stale_selection_no_fallback (routines : list Routine)
    (selectedRoutineId : string) :
  selectedRoutineId ≠ "" →
  (∀ r, In r routines → routine_id r ≠ selectedRoutineId) →
  currentRoutine routines selectedRoutineId = None
  ∧ (∀ error, truthy error = false →
       render false error routines selectedRoutineId = NoRoutineAvailable).
Proof.
  intros Hsel Hgone.
  assert (Hcur : currentRoutine routines selectedRoutineId = None).
  { unfold currentRoutine. simpl.
    apply String.eqb_neq in Hsel. rewrite Hsel. simpl.
    apply find_id_none, Hgone. }
  split; [exact Hcur|].
  intros error Herr. unfold render. rewrite Herr, Hcur. reflexivity.
Qed.

Lemma stale_selection_no_fallback_witness :
  currentRoutine [Sample.routine "r1" true []; Sample.routine "r2" false []] "r0" = None
  ∧ (∀ error, truthy error = false →
       render false error [Sample.routine "r1" true []; Sample.routine "r2" false []] "r0"
       = NoRoutineAvailable).
Proof.
  apply (stale_selection_no_fallback
           [Sample.routine "r1" true []; Sample.routine "r2" false []] "r0").
  - discriminate.
  - intros r [<-|[<-|[]]]; discriminate.
Defined.

(** ** The offline test script *)

Import OfflineTest.

Lemma promise_all_Resolved {A} (promises : list (Settled A)) (values : list A) :
  promise_all promises = Resolved values ↔ promises = map Resolved values.
Proof.
  revert values. induction promises as [|p ps IH]; intros values; simpl.
  - destruct values as [|v vs]; simpl; split; intros H; try reflexivity; discriminate.
  - destruct p as [a|].
    + destruct (promise_all ps) as [vs|] eqn:E.
      * split.
        -- intros [= <-]. simpl. f_equal. apply IH. reflexivity.
        -- destruct values as [|v values]; [discriminate|]. simpl.
           intros [= <- H]. apply IH in H. congruence.
      * split; [discriminate|].
        destruct values as [|v values]; [discriminate|]. simpl.
        intros [= <- H]. apply IH in H. discriminate.
    + split; [discriminate|]. destruct values; discriminate.
Qed.

Lemma promise_all_Rejected {A} (promises : list (Settled A)) :
  promise_all promises = Rejected ↔ In Rejected promises.
Proof.
  induction promises as [|p ps IH]; simpl.
  - split; [discriminate | intros []].
  - destruct p as [a|].
    + destruct (promise_all ps) as [vs|].
      * split; [discriminate|]. intros [H|H]; [discriminate|].
        apply IH in H. discriminate.
      * split; [|reflexivity]. intros _. right. apply IH. reflexivity.
    + split; [|reflexivity]. intros _. left. reflexivity.
Qed.

Lemma getStoreData_Rejected (db : Database) (name : string) :
  snd (getStoreData db name) = Rejected
  ↔ is_Some (stores db !! name) ∧ name ∈ failing db.
Proof.
  unfold getStoreData. destruct (stores db !! name) as [n|].
  - destruct (bool_decide_reflect (name ∈ failing db)) as [H|H]; simpl.
    + split; [eauto | reflexivity].
    + split; [discriminate | intros [_ H']; contradiction].
  - simpl. split; [discriminate | intros [[x [=]] _]].
Qed.

Lemma getStoreData_Resolved (db : Database) (name : string) (r : StoreData) :
  snd (getStoreData db name) = Resolved r →
  storeName r = name
  ∧ count r = default 0%nat (stores db !! name)
  ∧ (data r = None ↔ count r = 0%nat).
Proof.
  unfold getStoreData. destruct (stores db !! name) as [n|].
  - destruct (bool_decide (name ∈ failing db)); simpl; [discriminate|].
    intros [= <-]. simpl. split; [reflexivity|]. split; [reflexivity|].
    destruct n; simpl; split; intros; (reflexivity || discriminate).
  - simpl. intros [= <-]. simpl.
    split; [reflexivity|]. split; [reflexivity|]. split; reflexivity.
Qed.

(** The requests fail for the failing stores that are checked and that
    the database has, and for no others. *)
Lemma failures_spec (db : Database) (name : string) :
  In name (failures db)
  ↔ In name storesToCheck ∧ snd (getStoreData db name) = Rejected.
Proof.
  unfold failures. rewrite filter_In, andb_true_iff, !bool_decide_eq_true.
  rewrite getStoreData_Rejected, <- list_elem_of_In, elem_of_remove_dups.
  rewrite <- (list_elem_of_In storesToCheck). tauto.
Qed.

Lemma results_Rejected (db : Database) :
  results db = Rejected ↔ failures db ≠ [].
Proof.
  unfold results. rewrite promise_all_Rejected, in_map_iff. split.
  - intros [name [Hr Hin]] E.
    assert (H : In name (failures db)) by (apply failures_spec; auto).
    rewrite E in H. destruct H.
  - intros Hne. destruct (failures db) as [|name l] eqn:E; [contradiction|].
    assert (H : In name (failures db)) by (rewrite E; left; reflexivity).
    apply failures_spec in H. exists name. tauto.
Qed.

Lemma results_Resolved (db : Database) (rows : list StoreData) :
  results db = Resolved rows →
  failures db = []
  ∧ Forall2 (λ name r, snd (getStoreData db name) = Resolved r) storesToCheck rows.
Proof.
  intros H. split.
  - destruct (failures db) as [|name l] eqn:E; [reflexivity|].
    assert (Hr : results db = Rejected) by (apply results_Rejected; rewrite E; discriminate).
    congruence.
  - unfold results in H. apply promise_all_Resolved in H.
    revert rows H. generalize storesToCheck.
    induction l as [|name l IH]; intros [|r rows] H; try discriminate H.
    + constructor.
    + simpl in H. injection H as Hr H. constructor; [exact Hr | apply IH, H].
Qed.

Lemma hasRequiredData_results (db : Database) (rows : list StoreData) :
  results db = Resolved rows → hasRequiredData rows = false.
Proof.
  intros H. apply results_Resolved in H. destruct H as [_ H].
  unfold storesToCheck in H.
  inversion H as [|? r1 ? l1 _ H1]; subst. inversion H1 as [|? r2 ? l2 _ H2]; subst.
  inversion H2 as [|? r3 ? l3 _ H3]; subst. inversion H3 as [|? r4 ? l4 Hr4 _]; subst.
  apply getStoreData_Resolved in Hr4. destruct Hr4 as [Hname _].
  unfold hasRequiredData. cbn [forallb]. rewrite Hname.
  cbn [String.eqb Ascii.eqb Bool.eqb andb orb]. rewrite !andb_false_r. reflexivity.
Qed.

Lemma StoreNotFound_filter (lines : list ConsoleLine) (line : ConsoleLine) :
  In line
    (List.filter (λ l, match l with StoreNotFound _ => true | _ => false end) lines)
  → ∃ name, line = StoreNotFound name.
Proof. intros H. apply filter_In in H. destruct H as [_ H]. destruct line; eauto; discriminate. Qed.

(** C10, as worded, fails when a count request fails (or the database does
    not open): the script then ends in its [catch] and reports neither
    missing data nor success. *)
Lemma failed_count_reports_neither :
  ¬ In MissingRequiredData
      (report (Some {| stores := list_to_map [("routines", 3%nat); ("courses", 12%nat);
                                              ("teachers", 9%nat); ("tasks", 4%nat);
                                              ("userData", 1%nat)];
                       failing := ["tasks"] |}))
  ∧ In FailedToOpenDatabase
      (report (Some {| stores := list_to_map [("routines", 3%nat); ("courses", 12%nat);
                                              ("teachers", 9%nat); ("tasks", 4%nat);
                                              ("userData", 1%nat)];
                       failing := ["tasks"] |}))
  ∧ report None = [IndexedDBError; FailedToOpenDatabase].
Proof.
  vm_compute. split; [|split; [|reflexivity]].
  - intros [H|[H|[H|[]]]]; discriminate.
  - right. right. left. reflexivity.
Qed.

(** C10, amended: whatever the database holds, the required-data check is
    false whenever it is reached, because the entry of 'tasks' cannot pass
    a test that asks every entry to be routines, courses or teachers; the
    script never prints the success message, and it reports missing data
    exactly when the database opens and no count request fails. *)
Theorem hasRequiredData_always_false (opened : option Database) :
  (∀ db rows, results db = Resolved rows → hasRequiredData rows = false)
  ∧ ¬ In AllRequiredDataFound (report opened)
  ∧ (In MissingRequiredData (report opened)
     ↔ ∃ db, opened = Some db ∧ failures db = []).
Proof.
  split; [exact hasRequiredData_results|].
  destruct opened as [db|]; cycle 1.
  { split.
    - intros [H|[H|[]]]; discriminate.
    - split; [intros [H|[H|[]]]; discriminate | intros [db [[=] _]]]. }
  unfold report. destruct (results db) as [rows|] eqn:E.
  - rewrite (hasRequiredData_results db rows E).
    pose proof (results_Resolved db rows E) as [Hf _]. split.
    + rewrite !in_app_iff. intros [[H|[]]|[H|H]]; try discriminate.
      * apply StoreNotFound_filter in H. destruct H as [name H]. discriminate.
      * destruct H as [H|[H|[H|[]]]]; discriminate.
    + split; [intros _; eauto|]. intros _.
      rewrite !in_app_iff. right. right. right. left. reflexivity.
  - apply results_Rejected in E. split.
    + rewrite !in_app_iff. intros [[H|[]]|[H|H]]; try discriminate.
      * apply StoreNotFound_filter in H. destruct H as [name H]. discriminate.
      * destruct (failures db) as [|first later]; [destruct H|].
        destruct H as [H|[H|H]]; try discriminate.
        apply in_map_iff in H. destruct H as [x [H _]]. discriminate.
    + split; [|intros [db' [[= <-] Hf]]; contradiction].
      rewrite !in_app_iff. intros [[H|[]]|[H|H]]; try discriminate.
      * apply StoreNotFound_filter in H. destruct H as [name H]. discriminate.
      * destruct (failures db) as [|first later]; [destruct H|].
        destruct H as [H|[H|H]]; try discriminate.
        apply in_map_iff in H. destruct H as [x [H _]]. discriminate.
Qed.

(** Even a database with records in all five stores fails the check. *)
Example full_database_fails_the_check :
  report (Some {| stores := list_to_map [("routines", 3%nat); ("courses", 12%nat);
                                         ("teachers", 9%nat); ("tasks", 4%nat);
                                         ("userData", 1%nat)];
                  failing := [] |})
  = [FoundStores ["courses"; "userData"; "routines"; "teachers"; "tasks"];
     ItemsTable [("routines", 3%nat); ("courses", 12%nat); ("teachers", 9%nat);
                 ("tasks", 4%nat); ("userData", 1%nat)];
     MissingRequiredData; TestComplete].
Proof. vm_compute. reflexivity. Qed.

(** ** Single flight *)

Import SyncCoordinator.

Lemma prefetch_kind_spec (c : Caller) (st : State) (k : Kind) :
  offline (prefetch_kind c st k) = offline st
  ∧ delivered (prefetch_kind c st k) = delivered st
  ∧ cache (prefetch_kind c st k) = cache st
  ∧ issued (prefetch_kind c st k) = issued st ++ to_fetch st k
  ∧ ∀ k', inflight (prefetch_kind c st k) k'
          = if decide (k' = k) then attached c st k else inflight st k'.
Proof.
  unfold prefetch_kind, attached, to_fetch, update.
  destruct (inflight st k) as [waiting|] eqn:E; [|destruct (offline st) eqn:Eo]; simpl.
  - rewrite app_nil_r. do 4 (split; [reflexivity|]). reflexivity.
  - rewrite app_nil_r. split; [exact Eo|]. do 3 (split; [reflexivity|]).
    intros k'. destruct (decide (k' = k)) as [->|]; [exact E | reflexivity].
  - do 4 (split; [reflexivity|]). reflexivity.
Qed.

Lemma prefetchRoutineData_spec (c : Caller) (st : State) :
  offline (prefetchRoutineData c st) = offline st
  ∧ delivered (prefetchRoutineData c st) = delivered st
  ∧ issued (prefetchRoutineData c st)
    = issued st ++ to_fetch st routine ++ to_fetch st course ++ to_fetch st teacher
  ∧ ∀ k, inflight (prefetchRoutineData c st) k = attached c st k.
Proof.
  unfold prefetchRoutineData, prefetch. cbn [foldl].
  set (s1 := prefetch_kind c st routine).
  set (s2 := prefetch_kind c s1 course).
  destruct (prefetch_kind_spec c st routine) as (O1 & D1 & _ & I1 & F1).
  destruct (prefetch_kind_spec c s1 course) as (O2 & D2 & _ & I2 & F2).
  destruct (prefetch_kind_spec c s2 teacher) as (O3 & D3 & _ & I3 & F3).
  fold s1 in O1, D1, I1, F1. fold s2 in O2, D2, I2, F2.
  assert (T2 : to_fetch s1 course = to_fetch st course).
  { unfold to_fetch. rewrite O1, (F1 course). reflexivity. }
  assert (T3 : to_fetch s2 teacher = to_fetch st teacher).
  { unfold to_fetch. rewrite O2, (F2 teacher), (F1 teacher), O1. reflexivity. }
  split; [congruence|]. split; [congruence|]. split.
  - rewrite I3, I2, I1, T2, T3, <- !app_assoc. reflexivity.
  - intros k. rewrite (F3 k). unfold attached.
    destruct k; simpl.
    + rewrite (F2 routine), (F1 routine). reflexivity.
    + rewrite (F2 course). simpl. unfold attached. rewrite (F1 course), O1. reflexivity.
    + rewrite O2, O1, (F2 teacher), (F1 teacher). reflexivity.
Qed.

Lemma to_fetch_after (c : Caller) (st : State) (k : Kind) :
  to_fetch (prefetchRoutineData c st) k = [].
Proof.
  destruct (prefetchRoutineData_spec c st) as (O & _ & _ & F).
  unfold to_fetch. rewrite (F k), O. unfold attached.
  destruct (inflight st k); [reflexivity|]. destruct (offline st); reflexivity.
Qed.

Lemma fetches_app (k : Kind) (t1 t2 : list Kind) :
  fetches k (t1 ++ t2) = (fetches k t1 + fetches k t2)%nat.
Proof. unfold fetches. rewrite List.filter_app, length_app. reflexivity. Qed.

Lemma fetches_to_fetch (k k' : Kind) (st : State) :
  fetches k (to_fetch st k') = if decide (k' = k) then length (to_fetch st k') else 0%nat.
Proof.
  unfold fetches, to_fetch.
  destruct (inflight st k'); [destruct (decide _); reflexivity|].
  destruct (offline st); [destruct (decide _); reflexivity|].
  simpl. unfold bool_decide. destruct (decide_rel eq k' k), (decide (k' = k));
    try reflexivity; contradiction.
Qed.

Lemma to_fetch_length (st : State) (k : Kind) : (length (to_fetch st k) ≤ 1)%nat.
Proof.
  unfold to_fetch. destruct (inflight st k); [simpl; lia|].
  destruct (offline st); simpl; lia.
Qed.

(** C7: two calls of prefetch for routine, course and teacher in immediate
    succession issue at most one fetch per kind; a call for a kind in
    flight issues no fetch and attaches the caller to the pending result;
    when the fetch completes, every attached caller is handed the one
    outcome. *)
Theorem prefetch_twice_single_flight (st : State) (c1 c2 : Caller) :
  let st1 := prefetchRoutineData c1 st in
  let st2 := prefetchRoutineData c2 st1 in
  issued st2 = issued st1
  ∧ (∀ k, (fetches k (issued st2) ≤ S (fetches k (issued st)))%nat)
  ∧ (∀ s c k waiting,
        inflight s k = Some waiting →
        issued (prefetch c [k] s) = issued s
        ∧ inflight (prefetch c [k] s) k = Some (waiting ++ [c]))
  ∧ (∀ k waiting o,
        inflight st1 k = Some waiting →
        In c1 waiting
        ∧ inflight st2 k = Some (waiting ++ [c2])
        ∧ inflight (settle k o st2) k = None
        ∧ issued (settle k o st2) = issued st2
        ∧ delivered (settle k o st2)
          = delivered st2 ++ map (λ c, (c, k, o)) (waiting ++ [c2])).
Proof.
  intros st1 st2.
  destruct (prefetchRoutineData_spec c1 st) as (O1 & D1 & I1 & F1).
  destruct (prefetchRoutineData_spec c2 st1) as (O2 & D2 & I2 & F2).
  fold st1 in O1, D1, I1, F1. fold st2 in O2, D2, I2, F2.
  assert (Hsame : issued st2 = issued st1).
  { rewrite I2. unfold st1. rewrite !to_fetch_after, !app_nil_r. reflexivity. }
  split; [exact Hsame|]. split; [|split].
  - intros k. rewrite Hsame, I1, !fetches_app, !fetches_to_fetch.
    pose proof (to_fetch_length st routine).
    pose proof (to_fetch_length st course).
    pose proof (to_fetch_length st teacher).
    destruct k; simpl; lia.
  - intros s c k waiting Hk. unfold prefetch. cbn [foldl].
    destruct (prefetch_kind_spec c s k) as (_ & _ & _ & I & F).
    rewrite I, (F k). unfold to_fetch, attached. rewrite Hk, app_nil_r.
    destruct (decide (k = k)); [auto | contradiction].
  - intros k waiting o Hk.
    assert (Hk2 : inflight st2 k = Some (waiting ++ [c2])).
    { rewrite (F2 k). unfold attached. rewrite Hk. reflexivity. }
    split.
    { rewrite (F1 k) in Hk. unfold attached in Hk.
      destruct (inflight st k); [|destruct (offline st)]; try discriminate;
        injection Hk as <-; [apply in_or_app; right|]; left; reflexivity. }
    split; [exact Hk2|].
    unfold settle. rewrite Hk2. simpl. unfold update.
    destruct (decide (k = k)); [auto | contradiction].
Qed.

Example prefetch_twice_from_idle :
  issued (prefetchRoutineData 2 (prefetchRoutineData 1 idle)) = [routine; course; teacher]
  ∧ delivered (settle course Failed (prefetchRoutineData 2 (prefetchRoutineData 1 idle)))
    = [(1%nat, course, Failed); (2%nat, course, Failed)].
Proof. split; reflexivity. Qed.

(** * Further properties of the page *)

(** ** Dates and the strip of week days *)

Lemma format_EEEE_inj (d d' : Date) :
  format_EEEE d = format_EEEE d' → getDay d = getDay d'.
Proof.
  unfold format_EEEE.
  pose proof (getDay_range d) as H. pose proof (getDay_range d') as H'.
  destruct (getDay d) as [|[[|[]|]|[|[]|]|]|]; try lia;
    destruct (getDay d') as [|[[|[]|]|[|[]|]|]|]; try lia;
    try reflexivity; discriminate.
Qed.

Lemma startOfWeek_saturday (d : Date) :
  getDay (startOfWeek d 6) = 6
  ∧ epochDay (startOfWeek d 6) <= epochDay d < epochDay (startOfWeek d 6) + 7.
Proof.
  unfold startOfWeek. rewrite getDay_addDays. cbv zeta.
  pose proof (getDay_range d) as H. simpl epochDay.
  destruct (Z.ltb_spec (getDay d) 6) as [Hlt|Hge].
  - split; [|lia].
    replace (getDay d + - (7 + getDay d - 6)) with (-1) by lia. reflexivity.
  - split; [|lia].
    replace (getDay d + - (0 + getDay d - 6)) with 6 by lia. reflexivity.
Qed.

Lemma startOfWeek_offset (d : Date) :
  epochDay d - epochDay (startOfWeek d 6) = (getDay d + 1) `mod` 7.
Proof.
  unfold startOfWeek. cbv zeta. simpl epochDay.
  pose proof (getDay_range d) as H.
  destruct (Z.ltb_spec (getDay d) 6) as [Hlt|Hge].
  - rewrite Z.mod_small by lia. lia.
  - replace (getDay d) with 6 by lia. change ((6 + 1) `mod` 7) with 0. lia.
Qed.

(** A day of a week that starts on a Saturday has that Saturday as the
    start of its week. *)
Lemma startOfWeek_within (s : Date) (i : Z) :
  getDay s = 6 → 0 <= i < 7 → startOfWeek (addDays s i) 6 = s.
Proof.
  intros Hs Hi. unfold startOfWeek. cbv zeta. rewrite getDay_addDays, Hs.
  destruct s as [e]. unfold addDays. simpl. f_equal.
  assert (Hm : (6 + i) `mod` 7 = if i =? 0 then 6 else i - 1).
  { destruct (Z.eqb_spec i 0) as [->|Hne]; [reflexivity|].
    replace (6 + i) with (i - 1 + 1 * 7) by lia.
    rewrite Z_mod_plus_full. apply Z.mod_small. lia. }
  rewrite Hm. destruct (Z.eqb_spec i 0) as [->|Hne]; simpl.
  - lia.
  - destruct (Z.ltb_spec (i - 1) 6); lia.
Qed.

Lemma getDay_after_saturday (s : Date) (i : Z) :
  getDay s = 6 → getDay (addDays s i) = (6 + i) `mod` 7.
Proof. intros Hs. rewrite getDay_addDays, Hs. reflexivity. Qed.

Lemma weekDays_no_friday (selectedDate : Date) :
  Forall (λ wd, format_EEEE (wd_date wd) ≠ "Friday") (weekDays selectedDate).
Proof.
  destruct (startOfWeek_saturday selectedDate) as [Hsat _].
  unfold weekDays. cbv zeta. cbn [map].
  repeat constructor; cbn [wd_date]; unfold format_EEEE;
    rewrite (getDay_after_saturday _ _ Hsat); discriminate.
Qed.

(** X1: the strip of week days shows six consecutive days, Saturday to
    Thursday, of the week (Saturday to Friday) that holds the selected
    date; a Friday is never among them. *)
Theorem weekDays_saturday_to_thursday (selectedDate : Date) :
  ∃ s,
    s <= epochDay selectedDate < s + 7
    ∧ map (λ wd, epochDay (wd_date wd)) (weekDays selectedDate)
      = [s; s + 1; s + 2; s + 3; s + 4; s + 5]
    ∧ map wd_dayName (weekDays selectedDate)
      = ["Sat"; "Sun"; "Mon"; "Tue"; "Wed"; "Thu"]
    ∧ Forall (λ wd, format_EEEE (wd_date wd) ≠ "Friday") (weekDays selectedDate).
Proof.
  destruct (startOfWeek_saturday selectedDate) as [Hsat Hin].
  exists (epochDay (startOfWeek selectedDate 6)).
  split; [exact Hin|].
  split; [|split; [|apply weekDays_no_friday]];
    unfold weekDays; cbv zeta; cbn [map wd_date wd_dayName].
  - simpl. rewrite Z.add_0_r. reflexivity.
  - unfold format_EEE. rewrite !(getDay_after_saturday _ _ Hsat). reflexivity.
Qed.

(** X2: on the strip the button of the selected date, and no other, is
    highlighted; when the selected date is a Friday no button is. *)
Theorem weekDays_highlight (selectedDate : Date) :
  map wd_date (List.filter wd_isSelected (weekDays selectedDate))
  = if getDay selectedDate =? 5 then [] else [selectedDate].
Proof.
  destruct (startOfWeek_saturday selectedDate) as [Hsat _].
  pose proof (startOfWeek_offset selectedDate) as Hoff.
  unfold weekDays. cbv zeta. cbn [map].
  set (start := startOfWeek selectedDate 6) in *.
  assert (Hsel : ∀ i, 0 <= i < 6 →
            String.eqb (format_EEEE (addDays start i)) (format_EEEE selectedDate)
            = (i =? epochDay selectedDate - epochDay start)).
  { intros i Hi. rewrite Hoff.
    destruct (String.eqb_spec (format_EEEE (addDays start i)) (format_EEEE selectedDate))
      as [E|E].
    - apply format_EEEE_inj in E. rewrite (getDay_after_saturday _ _ Hsat) in E.
      symmetry. apply Z.eqb_eq.
      destruct (getDay_cases selectedDate) as [H|[H|[H|[H|[H|[H|H]]]]]];
        rewrite H in *;
        assert (Hc : i = 0 ∨ i = 1 ∨ i = 2 ∨ i = 3 ∨ i = 4 ∨ i = 5) by lia;
        destruct Hc as [->|[->|[->|[->|[->| ->]]]]]; try reflexivity; discriminate E.
    - symmetry. apply Z.eqb_neq. intros ->. apply E. unfold format_EEEE.
      rewrite (getDay_after_saturday _ _ Hsat).
      destruct (getDay_cases selectedDate) as [H|[H|[H|[H|[H|[H|H]]]]]];
        rewrite H in *; reflexivity. }
  cbn [List.filter wd_isSelected].
  rewrite !Hsel by lia. rewrite Hoff.
  assert (Hd : addDays start ((getDay selectedDate + 1) `mod` 7) = selectedDate).
  { rewrite <- Hoff. destruct selectedDate as [e], start as [s].
    unfold addDays. simpl. f_equal. lia. }
  clearbody start. clear Hsel Hoff.
  destruct (getDay_cases selectedDate) as [H|[H|[H|[H|[H|[H|H]]]]]];
    rewrite H in *; simpl; try reflexivity; rewrite <- Hd; reflexivity.
Qed.

Lemma date_eq (d d' : Date) : epochDay d = epochDay d' ↔ d = d'.
Proof.
  split; [|intros ->; reflexivity].
  destruct d, d'. simpl. intros ->. reflexivity.
Qed.

Lemma weekDays_dates (d d' : Date) :
  map wd_date (weekDays d) = map wd_date (weekDays d')
  ↔ startOfWeek d 6 = startOfWeek d' 6.
Proof.
  unfold weekDays. cbv zeta. cbn [map wd_date].
  generalize (startOfWeek d 6) (startOfWeek d' 6). intros s s'. split.
  - intros H. injection H as H _. apply date_eq. lia.
  - intros ->. reflexivity.
Qed.

Lemma startOfWeek_step (d : Date) (n : Z) :
  startOfWeek (addDays d n) 6 = startOfWeek d 6
  ↔ n + (getDay d + 1) `mod` 7 = (getDay d + n + 1) `mod` 7.
Proof.
  rewrite <- date_eq.
  pose proof (startOfWeek_offset d) as H.
  pose proof (startOfWeek_offset (addDays d n)) as Hn.
  rewrite getDay_addDays in Hn. rewrite Zplus_mod_idemp_l in Hn.
  simpl epochDay in Hn at 1. lia.
Qed.

(** X3: choosing a day on the strip leaves the strip on its week; the
    next-day button changes the week of the strip exactly when it leaves
    a Friday, the previous-day button exactly when it leaves a Saturday. *)
Theorem weekDays_keeps_week (selectedDate : Date) :
  (∀ wd, In wd (weekDays selectedDate) →
         map wd_date (weekDays (wd_date wd)) = map wd_date (weekDays selectedDate))
  ∧ (map wd_date (weekDays (nextDay selectedDate)) = map wd_date (weekDays selectedDate)
     ↔ format_EEEE selectedDate ≠ "Friday")
  ∧ (map wd_date (weekDays (previousDay selectedDate))
       = map wd_date (weekDays selectedDate)
     ↔ format_EEEE selectedDate ≠ "Saturday").
Proof.
  split; [|split].
  - intros wd Hwd. apply weekDays_dates.
    destruct (startOfWeek_saturday selectedDate) as [Hsat _].
    unfold weekDays in Hwd. cbv zeta in Hwd. cbn [map] in Hwd.
    destruct Hwd as [<-|[<-|[<-|[<-|[<-|[<-|[]]]]]]]; cbn [wd_date];
      apply (startOfWeek_within _ _ Hsat); lia.
  - rewrite weekDays_dates. unfold nextDay. rewrite startOfWeek_step.
    unfold format_EEEE.
    destruct (getDay_cases selectedDate) as [H|[H|[H|[H|[H|[H|H]]]]]];
      rewrite H; split; intros; try discriminate; try reflexivity; congruence.
  - rewrite weekDays_dates. unfold previousDay. rewrite startOfWeek_step.
    unfold format_EEEE.
    destruct (getDay_cases selectedDate) as [H|[H|[H|[H|[H|[H|H]]]]]];
      rewrite H; split; intros; try discriminate; try reflexivity; congruence.
Qed.

(** ** The filter, beyond the claims *)

(** X4: the slots shown depend on the weekday of the selected date only:
    any number of weeks earlier or later the same slots are shown. *)
Theorem filteredSlots_weekly (enrichedSlots : list EnrichedSlot)
    (searchTerm : string) (selectedDate : Date) (weeks : Z) :
  filteredSlots enrichedSlots searchTerm (addDays selectedDate (7 * weeks))
  = filteredSlots enrichedSlots searchTerm selectedDate.
Proof.
  unfold filteredSlots, matchesDay, format_EEEE.
  rewrite getDay_addDays, Z.mul_comm, Z_mod_plus_full.
  rewrite (Z.mod_small _ _ (getDay_range selectedDate)). reflexivity.
Qed.

Lemma format_EEEE_names (d : Date) :
  In (format_EEEE d)
    ["Sunday"; "Monday"; "Tuesday"; "Wednesday"; "Thursday"; "Friday"; "Saturday"].
Proof.
  unfold format_EEEE.
  destruct (getDay_cases d) as [H|[H|[H|[H|[H|[H|H]]]]]]; rewrite H; simpl; auto 10.
Qed.

(** X5: the day of a slot is compared as a string with the full English
    name of the weekday: a slot whose day is written any other way (lower
    case, abbreviated) is shown on no date, whatever the query. *)
Theorem filteredSlots_unnamed_day (slot : EnrichedSlot) :
  ¬ In (es_dayOfWeek slot)
      ["Sunday"; "Monday"; "Tuesday"; "Wednesday"; "Thursday"; "Friday"; "Saturday"] →
  ∀ enrichedSlots searchTerm selectedDate,
    ¬ In slot (filteredSlots enrichedSlots searchTerm selectedDate).
Proof.
  intros Hday es q d Hin. apply Hday.
  unfold filteredSlots in Hin. apply filter_In in Hin. destruct Hin as [_ Hkeep].
  apply andb_true_iff in Hkeep. destruct Hkeep as [_ Hd].
  apply String.eqb_eq in Hd. rewrite <- Hd. apply format_EEEE_names.
Qed.

Lemma filteredSlots_unnamed_day_witness :
  ¬ In (Spec.enrichment [] [] (Sample.slot "s1" "monday" "09:00" None None))
      (filteredSlots
         [Spec.enrichment [] [] (Sample.slot "s1" "monday" "09:00" None None)]
         "" Sample.monday).
Proof.
  apply (filteredSlots_unnamed_day
           (Spec.enrichment [] [] (Sample.slot "s1" "monday" "09:00" None None))).
  simpl. intros [H|[H|[H|[H|[H|[H|[H|[]]]]]]]]; discriminate.
Defined.

Lemma append_assoc (a b c : string) : (a +:+ b) +:+ c = a +:+ b +:+ c.
Proof.
  induction a as [|x a IH]; [reflexivity|].
  change (String x ((a +:+ b) +:+ c) = String x (a +:+ b +:+ c)).
  f_equal. exact IH.
Qed.

Lemma append_nil_inv (a b : string) : a +:+ b = "" → a = "" ∧ b = "".
Proof. destruct a; simpl; [auto | discriminate]. Qed.

Lemma ascii_only_app (s t : string) :
  Spec.ascii_only (s +:+ t) = Spec.ascii_only s && Spec.ascii_only t.
Proof.
  induction s as [|c s IH]; [reflexivity|].
  change (Spec.ascii_only (String c (s +:+ t))
          = Spec.ascii_only (String c s) && Spec.ascii_only t).
  simpl. rewrite IH, andb_assoc. reflexivity.
Qed.

Lemma same_ignoring_case_split (p u v : string) :
  Spec.same_ignoring_case p (u +:+ v) →
  ∃ p1 p2, p = p1 +:+ p2 ∧ Spec.same_ignoring_case p1 u ∧ Spec.same_ignoring_case p2 v.
Proof.
  revert p. induction u as [|c u IH]; intros p H.
  - exists "", p. split; [reflexivity|]. split; [exact I | exact H].
  - change (Spec.same_ignoring_case p (String c (u +:+ v))) in H.
    destruct p as [|a p]; [destruct H|]. destruct H as [Ha H].
    destruct (IH p H) as (p1 & p2 & -> & H1 & H2).
    exists (String a p1), p2. split; [reflexivity|]. split; [split; assumption | exact H2].
Qed.

Lemma occurs_ignoring_case_part (before q after s : string) :
  Spec.occurs_ignoring_case (before +:+ q +:+ after) s → Spec.occurs_ignoring_case q s.
Proof.
  intros (u & part & v & -> & Hpart).
  destruct (same_ignoring_case_split _ _ _ Hpart) as (p1 & rest & -> & _ & Hrest).
  destruct (same_ignoring_case_split _ _ _ Hrest) as (p2 & p3 & -> & Hq & _).
  exists (u +:+ p1), p2, (p3 +:+ v). split; [|exact Hq].
  rewrite !append_assoc. reflexivity.
Qed.

Lemma filter_sublist_impl {A} (p p' : A → bool) (l : list A) :
  (∀ x, In x l → p x = true → p' x = true) →
  sublist (List.filter p l) (List.filter p' l).
Proof.
  induction l as [|x l IH]; intros Himp; simpl; [constructor|].
  assert (IH' : sublist (List.filter p l) (List.filter p' l)).
  { apply IH. intros y Hy. apply Himp. right. exact Hy. }
  destruct (p x) eqn:Hp.
  - rewrite (Himp x (or_introl eq_refl) Hp). apply sublist_skip, IH'.
  - destruct (p' x); [apply sublist_cons|]; exact IH'.
Qed.

(** X6: for a query and fields of ASCII text, typing further characters
    around a query only narrows the list: the slots shown for the longer
    query are among those shown, in the same order, for any contiguous
    part of it. *)
Theorem filteredSlots_narrows (enrichedSlots : list EnrichedSlot)
    (before query after : string) (selectedDate : Date) :
  Spec.ascii_only (before +:+ query +:+ after) = true →
  (∀ slot, In slot enrichedSlots → Spec.ascii_fields slot = true) →
  sublist (filteredSlots enrichedSlots (before +:+ query +:+ after) selectedDate)
    (filteredSlots enrichedSlots query selectedDate).
Proof.
  intros Hlong Hfields.
  assert (Hq : Spec.ascii_only query = true).
  { rewrite !ascii_only_app in Hlong.
    apply andb_true_iff in Hlong. destruct Hlong as [_ Hlong].
    apply andb_true_iff in Hlong. tauto. }
  apply filter_sublist_impl. intros slot Hslot.
  rewrite !keep_lowered.
  rewrite (kept_lowered_ascii _ _ _ Hlong (Hfields slot Hslot)).
  rewrite (kept_lowered_ascii _ _ _ Hq (Hfields slot Hslot)).
  intros [Hday Hocc]. split; [exact Hday|].
  destruct Hocc as [Hocc|[H|[H|[[room [Hroom H]]|H]]]].
  - left. apply append_nil_inv in Hocc. destruct Hocc as [_ Hocc].
    apply append_nil_inv in Hocc. tauto.
  - right. left. exact (occurs_ignoring_case_part _ _ _ _ H).
  - right. right. left. exact (occurs_ignoring_case_part _ _ _ _ H).
  - right. right. right. left. exists room.
    split; [exact Hroom | exact (occurs_ignoring_case_part _ _ _ _ H)].
  - right. right. right. right. exact (occurs_ignoring_case_part _ _ _ _ H).
Qed.

Lemma filteredSlots_narrows_witness :
  sublist
    (filteredSlots (map (Spec.enrichment [] []) Sample.week) ("A" +:+ "lg" +:+ "e")
       Sample.monday)
    (filteredSlots (map (Spec.enrichment [] []) Sample.week) "lg" Sample.monday).
Proof.
  apply (filteredSlots_narrows (map (Spec.enrichment [] []) Sample.week) "A" "lg" "e").
  - reflexivity.
  - intros slot [<-|[<-|[<-|[<-|[]]]]]; reflexivity.
Defined.

(** Beyond ASCII the list can grow as the query is cut down and shrink
    again: the course 'ΑΣ' is found by 'ΑΣ' and not by its part 'Σ'. *)
Example narrowing_beyond_ascii :
  map es_id (filteredSlots [Spec.enrichment [] [] Sample.greek] "ΑΣ" Sample.monday) = ["g"]
  ∧ map es_id (filteredSlots [Spec.enrichment [] [] Sample.greek] "Σ" Sample.monday) = [].
Proof. vm_compute. split; reflexivity. Qed.



(** ** The cards *)

Lemma truthy_chain_nonempty (first : option string) (sentinel : string) :
  sentinel ≠ "" → Spec.truthy_chain first None sentinel ≠ "".
Proof.
  intros Hs. unfold Spec.truthy_chain.
  destruct first as [s|]; simpl; [|exact Hs].
  destruct (String.eqb_spec s ""); simpl; assumption.
Qed.

Lemma or_default_nonempty (s fallback : string) :
  s ≠ "" → or_default (Some s) fallback = s.
Proof.
  intros Hs. unfold or_default. simpl.
  apply String.eqb_neq in Hs. rewrite Hs. reflexivity.
Qed.

(** X8: the course code of an enriched slot is never empty, so the card's
    own 'N/A' for the course never applies: the card shows the code the
    enrichment computed. *)
Theorem card_course_code (current : option Routine)
    (courses : list Course) (teachers : list Teacher) :
  ∃ es,
    enriched current courses teachers = Normal es ∧
    Forall (λ e, es_courseCode e ≠ "" ∧ cardCourse e = es_courseCode e) es.
Proof.
  eexists. split; [apply enriched_Normal|].
  apply Forall_forall. intros e He.
  apply list_elem_of_In, in_map_iff in He. destruct He as [slot [<- _]].
  assert (Hne : es_courseCode (Spec.enrichment courses teachers slot) ≠ "").
  { simpl. apply truthy_chain_nonempty. discriminate. }
  split; [exact Hne|]. unfold cardCourse. apply or_default_nonempty, Hne.
Qed.

Lemma or_default_Some (s fallback : string) :
  or_default (Some s) fallback = if String.eqb s "" then fallback else s.
Proof. unfold or_default. simpl. destruct (String.eqb s ""); reflexivity. Qed.

Lemma truthy_chain_empty (first second : option string) (sentinel : string) :
  sentinel ≠ "" →
  Spec.truthy_chain first second sentinel = ""
  ↔ truthy first = false ∧ second = Some "".
Proof.
  intros Hs. unfold Spec.truthy_chain.
  destruct first as [s|]; simpl.
  - destruct (String.eqb_spec s "") as [->|Hne]; simpl.
    + destruct second as [r|]; split.
      * intros ->. auto.
      * intros [_ [= ->]]. reflexivity.
      * intros H. contradiction.
      * intros [_ [=]].
    + split; [intros H; contradiction | intros [[=] _]].
  - destruct second as [r|]; split.
    + intros ->. auto.
    + intros [_ [= ->]]. reflexivity.
    + intros H. contradiction.
    + intros [_ [=]].
Qed.

(** X9: the card's title falls back to 'No Course Name' exactly for a slot
    without a stored course name whose course resolves to a record with an
    empty name; a slot whose course does not resolve is titled by the
    enrichment ('Unknown Course' when it stores no name). *)
Theorem card_title (current : option Routine)
    (courses : list Course) (teachers : list Teacher) :
  ∃ es,
    enriched current courses teachers = Normal es ∧
    Forall2 (λ slot e,
        (cardTitle e ≠ es_courseName e
         ↔ truthy (slot_courseName slot) = false
           ∧ ∃ course, es_course e = Some course ∧ course_name course = "")
        ∧ (cardTitle e ≠ es_courseName e → cardTitle e = "No Course Name")
        ∧ (es_course e = None → truthy (slot_courseName slot) = false →
           cardTitle e = "Unknown Course"))
      (default [] (current ≫= routine_slots)) es.
Proof.
  eexists. split; [apply enriched_Normal|].
  apply Forall2_map_intro. intros slot.
  unfold cardTitle. rewrite or_default_Some.
  cbn [Spec.enrichment es_courseName es_course].
  generalize (Spec.resolve course_id courses (slot_courseId slot)). intros course.
  pose proof (truthy_chain_empty (slot_courseName slot) (course_name <$> course)
                "Unknown Course" ltac:(discriminate)) as Hempty.
  destruct (String.eqb_spec
              (Spec.truthy_chain (slot_courseName slot) (course_name <$> course)
                 "Unknown Course") "") as [E|E].
  - split; [|split].
    + rewrite E. split; [|discriminate]. intros _.
      destruct (proj1 Hempty E) as [Ht Hc]. split; [exact Ht|].
      destruct course as [c|]; [|discriminate]. injection Hc as Hc. eauto.
    + reflexivity.
    + intros -> Ht. apply Hempty in E. destruct E as [_ [=]].
  - split; [|split].
    + split; [contradiction|]. intros [Ht [c [-> Hc]]]. destruct E.
      apply Hempty. split; [exact Ht|]. simpl. rewrite Hc. reflexivity.
    + contradiction.
    + intros -> Ht. unfold Spec.truthy_chain. rewrite Ht. reflexivity.
Qed.

Lemma field_includes_self (s : string) : field_includes (Some s) s = true.
Proof. rewrite field_includes_Some. apply includes_self. Qed.

(** X10: the card names a teacher exactly when the teacher identifier
    resolves.  A slot whose teacher does not resolve shows no teacher at
    all, neither its stored teacher name nor 'Unknown Teacher', although
    the search still matches it by that text. *)
Theorem card_teacher (getInitials : string → string) (current : option Routine)
    (courses : list Course) (teachers : list Teacher) :
  ∃ es,
    enriched current courses teachers = Normal es ∧
    Forall2 (λ slot e,
        (cardTeacher getInitials e = None
         ↔ Spec.resolve teacher_id teachers (slot_teacherId slot) = None)
        ∧ (cardTeacher getInitials e = None →
           matchesSearch (es_teacherName e) e = true
           ∧ es_teacherName e
             = Spec.truthy_chain (slot_teacherName slot) None "Unknown Teacher"))
      (default [] (current ≫= routine_slots)) es.
Proof.
  eexists. split; [apply enriched_Normal|].
  apply Forall2_map_intro. intros slot.
  unfold cardTeacher, matchesSearch. cbn [Spec.enrichment es_teacher es_teacherName].
  destruct (Spec.resolve teacher_id teachers (slot_teacherId slot)) as [t|];
    cbn [defined].
  - split; [split; discriminate | discriminate].
  - split; [split; reflexivity|]. intros _. split; [|reflexivity].
    rewrite field_includes_self, !orb_true_r. reflexivity.
Qed.

(** ** Rendering again *)

Lemma sort_sorted {A} (cmp : A → A → Z) (l : list A) :
  StronglySorted (λ a b, cmp a b <= 0) l → sort cmp l = l.
Proof.
  induction 1 as [|x l Hl IH Hx]; simpl; [reflexivity|].
  rewrite IH. destruct Hx as [|y l' Hy _]; simpl; [reflexivity|].
  apply Z.leb_le in Hy. rewrite Hy. reflexivity.
Qed.

Lemma sort_length {A} (cmp : A → A → Z) (l : list A) : length (sort cmp l) = length l.
Proof. apply Permutation_length, sort_Permutation. Qed.

Lemma sort_startTime_idempotent (l : list EnrichedSlot) :
  sort (λ a b, localeCompare (es_startTime a) (es_startTime b))
    (sort (λ a b, localeCompare (es_startTime a) (es_startTime b)) l)
  = sort (λ a b, localeCompare (es_startTime a) (es_startTime b)) l.
Proof.
  apply sort_sorted.
  apply (sort_StronglySorted (λ a b, localeCompare (es_startTime a) (es_startTime b))).
  - intros a b H. rewrite localeCompare_flip. lia.
  - intros a b c. apply localeCompare_trans.
Qed.

Lemma renderClasses_again (filteredSlots : list EnrichedSlot) (searchTerm : string) :
  renderClasses (snd (renderClasses filteredSlots searchTerm)) searchTerm
  = renderClasses filteredSlots searchTerm.
Proof.
  unfold renderClasses.
  destruct (Nat.eqb_spec (length filteredSlots) 0) as [E|E]; cbn [snd].
  - rewrite E. reflexivity.
  - rewrite sort_length. apply Nat.eqb_neq in E. rewrite E.
    rewrite sort_startTime_idempotent. reflexivity.
Qed.

(** X11: the cards are sorted in place, in the array the memo holds; a
    render that finds the array as earlier renders left it shows the same
    cards in the same order, and leaves the same array. *)
Theorem rerender_stable (n : nat) (filteredSlots : list EnrichedSlot)
    (searchTerm : string) :
  rerender n filteredSlots searchTerm = renderClasses filteredSlots searchTerm.
Proof.
  revert filteredSlots. induction n as [|n IH]; intros fs; simpl.
  - reflexivity.
  - rewrite IH. apply renderClasses_again.
Qed.

(** ** The join with the course and teacher sets *)

Lemma filter_none {A} (p : A → bool) (l : list A) :
  (∀ x, In x l → p x = false) → List.filter p l = [].
Proof.
  induction l as [|x l IH]; intros H; simpl; [reflexivity|].
  rewrite (H x (or_introl eq_refl)). apply IH. intros y Hy. apply H. right. exact Hy.
Qed.

Lemma resolve_last_wins {V} (key : V → string) (before : list V) (r : V) (after : list V) :
  key r ≠ "" →
  (∀ r', In r' after → key r' ≠ key r) →
  Spec.resolve key (before ++ r :: after) (Some (key r)) = Some r.
Proof.
  intros Hkey Hafter. unfold Spec.resolve.
  apply String.eqb_neq in Hkey. rewrite Hkey.
  rewrite List.filter_app. cbn [List.filter]. rewrite String.eqb_refl.
  rewrite (filter_none _ after).
  - apply last_snoc.
  - intros r' Hr'. apply String.eqb_neq, Hafter, Hr'.
Qed.

(** X12: a slot is joined with the record stored last under its course
    identifier: of several courses with one identifier the last of the
    list is the one every slot referring to it gets. *)
Theorem enriched_last_course_wins (current : option Routine)
    (before : list Course) (course : Course) (after : list Course)
    (teachers : list Teacher) :
  course_id course ≠ "" →
  (∀ c, In c after → course_id c ≠ course_id course) →
  ∃ es,
    enriched current (before ++ course :: after) teachers = Normal es ∧
    Forall2 (λ slot e,
        slot_courseId slot = Some (course_id course) →
        es_course e = Some course
        ∧ es_courseName e
          = Spec.truthy_chain (slot_courseName slot) (Some (course_name course))
              "Unknown Course")
      (default [] (current ≫= routine_slots)) es.
Proof.
  intros Hid Hafter. eexists. split; [apply enriched_Normal|].
  apply Forall2_map_intro. intros slot Hslot.
  cbn [Spec.enrichment es_course es_courseName].
  rewrite Hslot, (resolve_last_wins course_id before course after Hid Hafter).
  split; reflexivity.
Qed.

Lemma enriched_last_course_wins_witness :
  ∃ es,
    enriched (Some (Sample.routine "r1" true [Sample.s1]))
      ([{| course_id := "c1"; course_name := "Algorithms"; course_code := "CS101" |}]
       ++ Sample.data_structures :: [Sample.uncoded]) []
    = Normal es ∧
    Forall2 (λ slot e,
        slot_courseId slot = Some (course_id Sample.data_structures) →
        es_course e = Some Sample.data_structures
        ∧ es_courseName e
          = Spec.truthy_chain (slot_courseName slot)
              (Some (course_name Sample.data_structures)) "Unknown Course")
      [Sample.s1] es.
Proof.
  apply (enriched_last_course_wins (Some (Sample.routine "r1" true [Sample.s1]))
           [{| course_id := "c1"; course_name := "Algorithms"; course_code := "CS101" |}]
           Sample.data_structures [Sample.uncoded] []).
  - discriminate.
  - intros c [<-|[]]. discriminate.
Defined.

Lemma key_inj_NoDup {V} (key : V → string) (l : list V) (a b : V) :
  NoDup (map key l) → In a l → In b l → key a = key b → a = b.
Proof.
  induction l as [|x l IH]; simpl; [intros _ []|].
  intros Hnd Ha Hb Hk. apply NoDup_cons in Hnd. destruct Hnd as [Hx Hnd].
  destruct Ha as [<-|Ha], Hb as [<-|Hb].
  - reflexivity.
  - destruct Hx. rewrite Hk. apply list_elem_of_In, in_map, Hb.
  - destruct Hx. rewrite <- Hk. apply list_elem_of_In, in_map, Ha.
  - apply IH; assumption.
Qed.

(** With identifiers that are unique a reference resolves to the one
    record carrying it. *)
Lemma resolve_unique {V} (key : V → string) (l : list V) (i : string) (r : V) :
  NoDup (map key l) →
  Spec.resolve key l (Some i) = Some r ↔ In r l ∧ key r = i ∧ i ≠ "".
Proof.
  intros Hnd. split.
  - intros H. pose proof (resolve_Some _ _ _ _ H) as [Hin [= ->]].
    split; [exact Hin|]. split; [reflexivity|].
    intros E. unfold Spec.resolve in H. rewrite E in H. discriminate.
  - intros (Hin & <- & Hne). unfold Spec.resolve.
    apply String.eqb_neq in Hne. rewrite Hne.
    destruct (last (List.filter (λ r0, String.eqb (key r0) (key r)) l)) as [r'|] eqn:E.
    + apply last_Some_elem_of, list_elem_of_In, filter_In in E.
      destruct E as [Hin' Hk]. apply String.eqb_eq in Hk.
      f_equal. exact (key_inj_NoDup key l r' r Hnd Hin' Hin Hk).
    + apply last_None in E.
      assert (Hr : In r (List.filter (λ r0, String.eqb (key r0) (key r)) l)).
      { apply filter_In. split; [exact Hin | apply String.eqb_refl]. }
      rewrite E in Hr. destruct Hr.
Qed.

Lemma resolve_Permutation {V} (key : V → string) (l l' : list V) (ref : option string) :
  NoDup (map key l) → Permutation l l' →
  Spec.resolve key l ref = Spec.resolve key l' ref.
Proof.
  intros Hnd Hp.
  assert (Hnd' : NoDup (map key l')).
  { assert (Hm : Permutation (map key l) (map key l')) by apply Permutation_map, Hp.
    rewrite <- Hm. exact Hnd. }
  destruct ref as [i|]; [|reflexivity].
  destruct (Spec.resolve key l (Some i)) as [r|] eqn:E.
  - symmetry. apply (resolve_unique key l' i r Hnd').
    apply (resolve_unique key l i r Hnd) in E. destruct E as (Hin & Hk & Hne).
    split; [|auto]. eapply Permutation_in; [exact Hp | exact Hin].
  - destruct (Spec.resolve key l' (Some i)) as [r'|] eqn:E'; [|reflexivity].
    apply (resolve_unique key l' i r' Hnd') in E'. destruct E' as (Hin & Hk & Hne).
    assert (H : Spec.resolve key l (Some i) = Some r').
    { apply (resolve_unique key l i r' Hnd). split; [|auto].
      eapply Permutation_in; [symmetry; exact Hp | exact Hin]. }
    congruence.
Qed.

(** X13: when the identifiers of the courses and of the teachers are
    unique, the order in which the two sets arrive does not matter: the
    enrichment of a routine is the same for every arrangement of them. *)
Theorem enriched_order_irrelevant (current : option Routine)
    (courses courses' : list Course) (teachers teachers' : list Teacher) :
  NoDup (map course_id courses) → NoDup (map teacher_id teachers) →
  Permutation courses courses' → Permutation teachers teachers' →
  enriched current courses teachers = enriched current courses' teachers'.
Proof.
  intros Hc Ht Pc Pt. rewrite !enriched_Normal. f_equal.
  apply map_ext. intros slot. unfold Spec.enrichment.
  rewrite (resolve_Permutation course_id courses courses' _ Hc Pc).
  rewrite (resolve_Permutation teacher_id teachers teachers' _ Ht Pt).
  reflexivity.
Qed.

Lemma enriched_order_irrelevant_witness :
  enriched (Some (Sample.routine "r1" true [Sample.s1; Sample.of_uncoded]))
    [Sample.data_structures; Sample.uncoded] []
  = enriched (Some (Sample.routine "r1" true [Sample.s1; Sample.of_uncoded]))
      [Sample.uncoded; Sample.data_structures] [].
Proof.
  apply enriched_order_irrelevant.
  - apply NoDup_cons. split; [|apply NoDup_cons; split; [|apply NoDup_nil; exact I]].
    + intros H. apply list_elem_of_In in H. destruct H as [H|[]]. discriminate.
    + intros H. apply list_elem_of_In in H. destruct H.
  - apply NoDup_nil. exact I.
  - apply perm_swap.
  - reflexivity.
Defined.

Lemma resolve_without {V} (key : V → string) (before : list V) (r : V) (after : list V)
    (ref : option string) :
  ref ≠ Some (key r) →
  Spec.resolve key (before ++ r :: after) ref = Spec.resolve key (before ++ after) ref.
Proof.
  intros Hne. destruct ref as [i|]; [|reflexivity]. unfold Spec.resolve.
  destruct (String.eqb i ""); [reflexivity|].
  rewrite !List.filter_app. cbn [List.filter].
  destruct (String.eqb_spec (key r) i) as [E|E]; [|reflexivity].
  destruct Hne. rewrite E. reflexivity.
Qed.

(** X14: a course that no slot of the routine refers to has no effect on
    the enrichment: with or without it, wherever it stands in the set, the
    enriched slots are the same. *)
Theorem enriched_ignores_unreferenced_course (current : option Routine)
    (before : list Course) (course : Course) (after : list Course)
    (teachers : list Teacher) :
  (∀ slot, In slot (default [] (current ≫= routine_slots)) →
           slot_courseId slot ≠ Some (course_id course)) →
  enriched current (before ++ course :: after) teachers
  = enriched current (before ++ after) teachers.
Proof.
  intros Hun. rewrite !enriched_Normal. f_equal.
  apply map_ext_in. intros slot Hslot. unfold Spec.enrichment.
  rewrite (resolve_without course_id before course after _ (Hun slot Hslot)).
  reflexivity.
Qed.

Lemma enriched_ignores_unreferenced_course_witness :
  enriched (Some (Sample.routine "r1" true [Sample.s1]))
    ([Sample.data_structures] ++ Sample.uncoded :: []) []
  = enriched (Some (Sample.routine "r1" true [Sample.s1]))
      ([Sample.data_structures] ++ []) [].
Proof.
  apply (enriched_ignores_unreferenced_course
           (Some (Sample.routine "r1" true [Sample.s1]))
           [Sample.data_structures] Sample.uncoded [] []).
  intros slot [<-|[]]. discriminate.
Defined.

(** ** Choosing the routine *)

Lemma find_key_NoDup (routines : list Routine) (r : Routine) :
  NoDup (map routine_id routines) → In r routines →
  List.find (λ x, String.eqb (routine_id x) (routine_id r)) routines = Some r.
Proof.
  intros Hnd Hin.
  destruct (List.find (λ x, String.eqb (routine_id x) (routine_id r)) routines)
    as [r'|] eqn:E.
  - apply find_some in E. destruct E as [Hin' Hk]. apply String.eqb_eq in Hk.
    f_equal. exact (key_inj_NoDup routine_id routines r' r Hnd Hin' Hin Hk).
  - pose proof (List.find_none _ _ E r Hin) as H. simpl in H.
    rewrite String.eqb_refl in H. discriminate.
Qed.

Lemma currentRoutine_In (routines : list Routine) (selectedRoutineId : string)
    (r : Routine) :
  currentRoutine routines selectedRoutineId = Some r → In r routines.
Proof.
  unfold currentRoutine. destruct (truthy (Some selectedRoutineId)).
  - intros H. apply find_some in H. tauto.
  - destruct (List.find (λ r0, routine_isActive r0) routines) as [a|] eqn:E.
    + intros [= <-]. apply find_some in E. tauto.
    + destruct routines as [|x l]; simpl; [discriminate|].
      intros [= <-]. left. reflexivity.
Qed.

(** X15: the routine on display is always one of the list, and under an
    explicit selection it carries the selected id: the first routine of
    the list that does, whether active or not. *)
Theorem currentRoutine_sound (routines : list Routine) (selectedRoutineId : string)
    (r : Routine) :
  currentRoutine routines selectedRoutineId = Some r →
  In r routines
  ∧ (selectedRoutineId ≠ "" →
     routine_id r = selectedRoutineId
     ∧ ∃ before after,
         routines = before ++ r :: after
         ∧ Forall (λ x, routine_id x ≠ selectedRoutineId) before).
Proof.
  intros H. split; [exact (currentRoutine_In _ _ _ H)|].
  intros Hsel. unfold currentRoutine in H. simpl in H.
  apply String.eqb_neq in Hsel. rewrite Hsel in H. simpl in H.
  clear Hsel. induction routines as [|x l IH]; simpl in H; [discriminate|].
  destruct (String.eqb_spec (routine_id x) selectedRoutineId) as [E|E].
  - injection H as <-. split; [exact E|].
    exists [], l. split; [reflexivity | constructor].
  - destruct (IH H) as [Hid (before & after & -> & Hb)]. split; [exact Hid|].
    exists (x :: before), after. split; [reflexivity|].
    constructor; assumption.
Qed.

Lemma currentRoutine_sound_witness :
  In (Sample.routine "r2" false [])
     [Sample.routine "r1" true []; Sample.routine "r2" false []]
  ∧ ("r2" ≠ "" →
     routine_id (Sample.routine "r2" false []) = "r2"
     ∧ ∃ before after,
         [Sample.routine "r1" true []; Sample.routine "r2" false []]
         = before ++ Sample.routine "r2" false [] :: after
         ∧ Forall (λ x, routine_id x ≠ "r2") before).
Proof.
  apply (currentRoutine_sound
           [Sample.routine "r1" true []; Sample.routine "r2" false []] "r2").
  reflexivity.
Defined.

Lemma truthy_Some_false (s : string) : truthy (Some s) = false → s = "".
Proof. simpl. destruct (String.eqb_spec s ""); [auto | discriminate]. Qed.

Lemma adopt_keeps_current (routines : list Routine) (selectedRoutineId : string) :
  NoDup (map routine_id routines) →
  currentRoutine routines (adoptCurrentRoutine routines selectedRoutineId)
  = currentRoutine routines selectedRoutineId.
Proof.
  intros Hnd. unfold adoptCurrentRoutine. cbv zeta.
  destruct (truthy (Some selectedRoutineId)) eqn:Hsel;
    [rewrite andb_false_r; reflexivity|].
  rewrite andb_true_r.
  destruct (currentRoutine routines selectedRoutineId) as [r|] eqn:Hcur;
    [|exact Hcur].
  cbn [opt_prop fmap option_fmap option_map default].
  destruct (truthy (Some (routine_id r))) eqn:Hid; [|exact Hcur].
  unfold id. unfold currentRoutine at 1. rewrite Hid.
  apply find_key_NoDup; [exact Hnd | exact (currentRoutine_In _ _ _ Hcur)].
Qed.

(** X16: when the routine ids are unique, the effect that writes the id of
    the default routine into the selection does not change the routine on
    display. *)
Theorem adoptCurrentRoutine_keeps_current (routines : list Routine)
    (selectedRoutineId : string) :
  NoDup (map routine_id routines) →
  currentRoutine routines (adoptCurrentRoutine routines selectedRoutineId)
  = currentRoutine routines selectedRoutineId.
Proof. apply adopt_keeps_current. Qed.

Lemma adoptCurrentRoutine_keeps_current_witness :
  currentRoutine [Sample.routine "r1" false []; Sample.routine "r2" true []]
    (adoptCurrentRoutine [Sample.routine "r1" false []; Sample.routine "r2" true []] "")
  = currentRoutine [Sample.routine "r1" false []; Sample.routine "r2" true []] "".
Proof.
  apply adoptCurrentRoutine_keeps_current.
  apply NoDup_cons. split; [|apply NoDup_cons; split; [|apply NoDup_nil; exact I]].
  - intros H. apply list_elem_of_In in H. destruct H as [H|[]]. discriminate.
  - intros H. apply list_elem_of_In in H. destruct H.
Defined.

(** Without unique ids the effect can change the routine on display: the
    active routine is shown first, and after its id is adopted the first
    routine with that id. *)
Example adoptCurrentRoutine_duplicate_ids :
  currentRoutine [Sample.routine "r1" false []; Sample.routine "r1" true []] ""
  = Some (Sample.routine "r1" true [])
  ∧ currentRoutine [Sample.routine "r1" false []; Sample.routine "r1" true []]
      (adoptCurrentRoutine
         [Sample.routine "r1" false []; Sample.routine "r1" true []] "")
    = Some (Sample.routine "r1" false []).
Proof. split; reflexivity. Qed.

Lemma adopt_settles (routines : list Routine) (selectedRoutineId : string) :
  (selectedRoutineId ≠ "" →
   adoptCurrentRoutine routines selectedRoutineId = selectedRoutineId)
  ∧ adoptCurrentRoutine routines (adoptCurrentRoutine routines selectedRoutineId)
    = adoptCurrentRoutine routines selectedRoutineId.
Proof.
  assert (Hkeep : ∀ sel, sel ≠ "" → adoptCurrentRoutine routines sel = sel).
  { intros sel Hsel. unfold adoptCurrentRoutine. cbv zeta.
    apply String.eqb_neq in Hsel. simpl. rewrite Hsel. simpl.
    rewrite andb_false_r. reflexivity. }
  split; [apply Hkeep|].
  destruct (String.eqb_spec (adoptCurrentRoutine routines selectedRoutineId) "")
    as [E|E]; [|apply Hkeep, E].
  rewrite E.
  destruct (String.eqb_spec selectedRoutineId "") as [->|Hne]; [exact E|].
  rewrite (Hkeep _ Hne) in E. contradiction.
Qed.

(** X17: the effect never replaces a selection that was made, and running
    it again changes nothing: one run settles the selection. *)
Theorem adoptCurrentRoutine_settles (routines : list Routine)
    (selectedRoutineId : string) :
  (selectedRoutineId ≠ "" →
   adoptCurrentRoutine routines selectedRoutineId = selectedRoutineId)
  ∧ adoptCurrentRoutine routines (adoptCurrentRoutine routines selectedRoutineId)
    = adoptCurrentRoutine routines selectedRoutineId.
Proof. apply adopt_settles. Qed.

(** X18: with unique ids, choosing a routine in the selector puts that
    routine on display and sends the window nowhere, provided its id is
    neither empty nor 'create-new'. *)
Theorem handleRoutineChange_selects (routines : list Routine) (r : Routine)
    (selectedRoutineId : string) :
  NoDup (map routine_id routines) →
  In r routines →
  routine_id r ≠ "" →
  routine_id r ≠ "create-new" →
  In (routine_id r) (routineOptions routines false)
  ∧ snd (handleRoutineChange (routine_id r) selectedRoutineId) = None
  ∧ currentRoutine routines (fst (handleRoutineChange (routine_id r) selectedRoutineId))
    = Some r.
Proof.
  intros Hnd Hin Hne Hnew. unfold handleRoutineChange, routineOptions.
  apply String.eqb_neq in Hnew. rewrite Hnew. cbn [fst snd].
  split; [|split].
  - rewrite app_nil_r. apply in_map, Hin.
  - reflexivity.
  - unfold currentRoutine. simpl. apply String.eqb_neq in Hne. rewrite Hne. simpl.
    apply find_key_NoDup; assumption.
Qed.

Lemma handleRoutineChange_selects_witness :
  In (routine_id (Sample.routine "r2" false []))
     (routineOptions [Sample.routine "r1" true []; Sample.routine "r2" false []] false)
  ∧ snd (handleRoutineChange (routine_id (Sample.routine "r2" false [])) "r1") = None
  ∧ currentRoutine [Sample.routine "r1" true []; Sample.routine "r2" false []]
      (fst (handleRoutineChange (routine_id (Sample.routine "r2" false [])) "r1"))
    = Some (Sample.routine "r2" false []).
Proof.
  apply (handleRoutineChange_selects
           [Sample.routine "r1" true []; Sample.routine "r2" false []]
           (Sample.routine "r2" false []) "r1").
  - apply NoDup_cons. split; [|apply NoDup_cons; split; [|apply NoDup_nil; exact I]].
    + intros H. apply list_elem_of_In in H. destruct H as [H|[]]. discriminate.
    + intros H. apply list_elem_of_In in H. destruct H.
  - right. left. reflexivity.
  - discriminate.
  - discriminate.
Defined.

(** A routine whose id is 'create-new' cannot be chosen in the selector:
    its option opens the administration page and leaves the selection. *)
Example handleRoutineChange_create_new :
  handleRoutineChange (routine_id (Sample.routine "create-new" true [])) "r1"
  = ("r1", Some "/#admin?tab=routine").
Proof. reflexivity. Qed.

(** ** From the routines to the cards *)

(** X19: the cards are read from state that the effects write after a
    render.  With unique routine ids, once the effects of a render have
    run, the state is settled (running them again gives the same state),
    it holds the enrichment of the routine then on display, and every card
    is the enrichment of a slot of that routine on the selected weekday. *)
Theorem cards_after_effects (routines : list Routine) (courses : list Course)
    (teachers : list Teacher) (st : PageState)
    (searchTerm : string) (selectedDate : Date) :
  NoDup (map routine_id routines) →
  ∃ st1,
    runEffects routines courses teachers st = Normal st1
    ∧ runEffects routines courses teachers st1 = Normal st1
    ∧ enriched (currentRoutine routines (st_selectedRoutineId st1)) courses teachers
      = Normal (st_enrichedSlots st1)
    ∧ Forall (λ e,
          ∃ r, currentRoutine routines (st_selectedRoutineId st1) = Some r
               ∧ In r routines
               ∧ In (es_slot e) (default [] (routine_slots r))
               ∧ e = Spec.enrichment courses teachers (es_slot e)
               ∧ es_dayOfWeek e = format_EEEE selectedDate)
        (cards st1 searchTerm selectedDate).
Proof.
  intros Hnd.
  set (sel := st_selectedRoutineId st).
  set (current := currentRoutine routines sel).
  set (es := map (Spec.enrichment courses teachers)
               (default [] (current ≫= routine_slots))).
  exists {| st_selectedRoutineId := adoptCurrentRoutine routines sel;
            st_enrichedSlots := es |}.
  assert (Hcur : currentRoutine routines (adoptCurrentRoutine routines sel) = current)
    by exact (adopt_keeps_current routines sel Hnd).
  split; [|split; [|split]].
  - unfold runEffects. fold sel current. rewrite enriched_Normal. reflexivity.
  - unfold runEffects. cbn [st_selectedRoutineId]. rewrite Hcur, enriched_Normal.
    rewrite (proj2 (adopt_settles routines sel)). reflexivity.
  - cbn [st_selectedRoutineId st_enrichedSlots]. rewrite Hcur. apply enriched_Normal.
  - unfold cards. cbn [st_selectedRoutineId st_enrichedSlots]. rewrite Hcur.
    apply Forall_forall. intros e He. apply list_elem_of_In in He.
    unfold presentedSlots in He.
    apply (Permutation_in _ (sort_Permutation _ _)) in He.
    unfold filteredSlots in He. apply filter_In in He. destruct He as [He Hkeep].
    apply in_map_iff in He. destruct He as [slot [<- Hslot]].
    apply andb_true_iff in Hkeep. destruct Hkeep as [_ Hday].
    apply String.eqb_eq in Hday.
    destruct current as [r|] eqn:E; [|destruct Hslot].
    exists r. split; [reflexivity|].
    split; [exact (currentRoutine_In _ _ _ E)|].
    split; [exact Hslot|]. split; [reflexivity | symmetry; exact Hday].
Qed.

Lemma cards_after_effects_witness :
  ∃ st1,
    runEffects [Sample.routine "r0" false [Sample.s1]; Sample.routine "r1" true Sample.week]
      [] [] {| st_selectedRoutineId := ""; st_enrichedSlots := [] |} = Normal st1
    ∧ runEffects
        [Sample.routine "r0" false [Sample.s1]; Sample.routine "r1" true Sample.week]
        [] [] st1 = Normal st1
    ∧ enriched
        (currentRoutine
           [Sample.routine "r0" false [Sample.s1]; Sample.routine "r1" true Sample.week]
           (st_selectedRoutineId st1)) [] []
      = Normal (st_enrichedSlots st1)
    ∧ Forall (λ e,
          ∃ r, currentRoutine
                 [Sample.routine "r0" false [Sample.s1];
                  Sample.routine "r1" true Sample.week]
                 (st_selectedRoutineId st1) = Some r
               ∧ In r [Sample.routine "r0" false [Sample.s1];
                       Sample.routine "r1" true Sample.week]
               ∧ In (es_slot e) (default [] (routine_slots r))
               ∧ e = Spec.enrichment [] [] (es_slot e)
               ∧ es_dayOfWeek e = format_EEEE Sample.monday)
        (cards st1 "" Sample.monday).
Proof.
  apply (cards_after_effects
           [Sample.routine "r0" false [Sample.s1]; Sample.routine "r1" true Sample.week]
           [] [] {| st_selectedRoutineId := ""; st_enrichedSlots := [] |} "" Sample.monday).
  apply NoDup_cons. split; [|apply NoDup_cons; split; [|apply NoDup_nil; exact I]].
  - intros H. apply list_elem_of_In in H. destruct H as [H|[]]. discriminate.
  - intros H. apply list_elem_of_In in H. destruct H.
Defined.

(** In the render that follows a change of routine, before its effects
    have run, the cards are still those of the routine shown before: here
    routine r1 has just been chosen and the card is the slot of r0. *)
Example cards_before_effects :
  currentRoutine
    [Sample.routine "r0" false [Sample.s1]; Sample.routine "r1" true Sample.week] "r1"
  = Some (Sample.routine "r1" true Sample.week)
  ∧ map es_id
      (cards {| st_selectedRoutineId := "r1";
                st_enrichedSlots := [Spec.enrichment [] [] Sample.s1] |}
         "" Sample.monday)
    = ["s1"]
  ∧ ¬ In Sample.s1 Sample.week.
Proof.
  split; [reflexivity|]. split; [vm_compute; reflexivity|].
  intros [H|[H|[H|[H|[]]]]]; discriminate.
Qed.

(** ** The table of the offline test *)

(** X20: when every count request succeeds, the table of the test script
    has one row per checked store, in the order they are checked; a store
    the database lacks is counted as 0 items, like an empty one, and is the
    only kind of store the script warns about as not found. *)
Theorem results_rows (db : Database) :
  (∀ rows, results db = Resolved rows →
     Forall2 (λ name r,
         storeName r = name
         ∧ count r = default 0%nat (stores db !! name)
         ∧ (data r = None ↔ count r = 0%nat))
       storesToCheck rows)
  ∧ ((∃ rows, results db = Resolved rows) ↔ failures db = [])
  ∧ ∀ name, In (StoreNotFound name) (report (Some db))
            ↔ In name storesToCheck ∧ stores db !! name = None.
Proof.
  split; [|split].
  - intros rows H. apply results_Resolved in H. destruct H as [_ H].
    eapply Forall2_impl; [exact H|]. intros name r Hr.
    exact (getStoreData_Resolved db name r Hr).
  - split.
    + intros [rows H]. exact (proj1 (results_Resolved db rows H)).
    + intros Hf. destruct (results db) as [rows|] eqn:E; [eauto|].
      apply results_Rejected in E. contradiction.
  - intros name. unfold report. rewrite !in_app_iff. split.
    + intros [[H|[]]|[H|H]]; [discriminate| |].
      * apply filter_In in H. destruct H as [H _].
        apply in_concat in H. destruct H as [ws [Hws H]].
        apply in_map_iff in Hws. destruct Hws as [name' [<- Hin]].
        unfold getStoreData in H. destruct (stores db !! name') eqn:E.
        -- destruct (bool_decide (name' ∈ failing db)); simpl in H.
           ++ destruct H as [H|[]]. discriminate.
           ++ destruct H.
        -- simpl in H. destruct H as [[= <-]|[]]. auto.
      * destruct (results db) as [rows|].
        -- destruct H as [H|[H|[H|[]]]]; try discriminate.
           destruct (hasRequiredData rows); discriminate.
        -- destruct (failures db) as [|first later]; [destruct H|].
           destruct H as [H|[H|H]]; try discriminate.
           apply in_map_iff in H. destruct H as [x [H _]]. discriminate.
    + intros [Hin Hnone]. right. left. apply filter_In. split; [|reflexivity].
      apply in_concat. exists (fst (getStoreData db name)). split.
      * apply in_map_iff. exists name. auto.
      * unfold getStoreData. rewrite Hnone. left. reflexivity.
Qed.

(** ** Fridays *)

(** X21: no button of the strip leads to the classes of a Friday: whatever
    day is chosen there, no Friday slot is shown.  Fridays are reached with
    the next-day button from a Thursday and with the previous-day button
    from a Saturday. *)
Theorem friday_only_by_stepping (selectedDate : Date) :
  Forall (λ wd,
      ∀ enrichedSlots searchTerm slot,
        In slot (filteredSlots enrichedSlots searchTerm (wd_date wd)) →
        es_dayOfWeek slot ≠ "Friday")
    (weekDays selectedDate)
  ∧ (format_EEEE (nextDay selectedDate) = "Friday"
     ↔ format_EEEE selectedDate = "Thursday")
  ∧ (format_EEEE (previousDay selectedDate) = "Friday"
     ↔ format_EEEE selectedDate = "Saturday").
Proof.
  split; [|split].
  - eapply Forall_impl; [apply weekDays_no_friday|].
    intros wd Hwd es q slot Hin Hday. apply Hwd.
    unfold filteredSlots in Hin. apply filter_In in Hin. destruct Hin as [_ Hkeep].
    apply andb_true_iff in Hkeep. destruct Hkeep as [_ Hd].
    apply String.eqb_eq in Hd. rewrite Hd. exact Hday.
  - unfold nextDay, format_EEEE. rewrite getDay_addDays.
    destruct (getDay_cases selectedDate) as [H|[H|[H|[H|[H|[H|H]]]]]];
      rewrite H; split; intros; try discriminate; reflexivity.
  - unfold previousDay, format_EEEE. rewrite getDay_addDays.
    destruct (getDay_cases selectedDate) as [H|[H|[H|[H|[H|[H|H]]]]]];
      rewrite H; split; intros; try discriminate; reflexivity.
Qed.
